(** * oval-package-parser: the inventory parser and the fix-version evaluator

    A shallow embedding of [parser.go] (section tracker, line classifiers,
    distro detection) and of [isPackageFixed] from [main.go], with the
    properties of the specification stated and proved over it.

    Go strings are byte sequences: they are modelled as [string] (a list of
    8-bit [ascii] characters).  Go [int]s are modelled as [Z]. *)

From Stdlib Require Import ZArith Ascii Lia Bool.
From stdpp Require Import base option list gmap strings.

Local Open Scope Z_scope.

(** ** Bytes and strings *)

Module GoString.

Definition byteZ (c : ascii) : Z := Z.of_N (N_of_ascii c).

(** [len(s)] *)
Fixpoint len (s : string) : nat :=
  match s with
  | EmptyString => O
  | String _ t => S (len t)
  end.

(** [s[:n]] *)
Fixpoint slice_to (n : nat) (s : string) : string :=
  match n, s with
  | S n', String c t => String c (slice_to n' t)
  | _, _ => EmptyString
  end.

(** [s[n:]] *)
Fixpoint slice_from (n : nat) (s : string) : string :=
  match n, s with
  | S n', String _ t => slice_from n' t
  | _, _ => s
  end.

(** [s[i]], for [i] in range *)
Fixpoint byte_at (i : nat) (s : string) : option ascii :=
  match s, i with
  | EmptyString, _ => None
  | String c _, O => Some c
  | String _ t, S i' => byte_at i' t
  end.

Definition streq (a b : string) : bool := bool_decide (a = b).

(** [strings.HasPrefix] *)
Fixpoint HasPrefix (s prefix : string) {struct prefix} : bool :=
  match prefix, s with
  | EmptyString, _ => true
  | String p ps, String c t => bool_decide (p = c) && HasPrefix t ps
  | String _ _, EmptyString => false
  end.

(** [strings.TrimPrefix] *)
Definition TrimPrefix (s prefix : string) : string :=
  if HasPrefix s prefix then slice_from (len prefix) s else s.

(** [strings.Index]: byte offset of the first occurrence, or [-1]. *)
Fixpoint Index_from (i : Z) (s substr : string) : Z :=
  if HasPrefix s substr then i
  else match s with
       | EmptyString => -1
       | String _ t => Index_from (i + 1) t substr
       end.

Definition Index (s substr : string) : Z := Index_from 0 s substr.

(** [strings.LastIndex]: byte offset of the last occurrence, or [-1]. *)
Fixpoint LastIndex_from (i : Z) (s substr : string) : Z :=
  match s with
  | EmptyString => if HasPrefix s substr then i else -1
  | String _ t =>
      let later := LastIndex_from (i + 1) t substr in
      if 0 <=? later then later
      else if HasPrefix s substr then i else -1
  end.

Definition LastIndex (s substr : string) : Z := LastIndex_from 0 s substr.

End GoString.

Import GoString.

(** ** UTF-8 decoding ([unicode/utf8]) and [unicode.IsSpace] *)

Module utf8.

Definition RuneError : Z := 0xFFFD.
Definition RuneSelf : Z := 0x80.
Definition UTFMax : nat := 4.

(** The [first] table: information about the first byte of an encoding.
    [as_] marks ASCII, [xx] an invalid first byte; otherwise the low three
    bits are the size and the high four bits index [acceptRanges]. *)
Definition as_ : Z := 0xF0.
Definition xx : Z := 0xF1.

Definition first (b : Z) : Z :=
  if b <? 0x80 then as_
  else if b <? 0xC2 then xx
  else if b <? 0xE0 then 0x02
  else if b =? 0xE0 then 0x13
  else if b <? 0xED then 0x03
  else if b =? 0xED then 0x23
  else if b <? 0xF0 then 0x03
  else if b =? 0xF0 then 0x34
  else if b <? 0xF4 then 0x04
  else if b =? 0xF4 then 0x44
  else xx.

(** [acceptRanges]: the permitted range of the second byte. *)
Definition acceptRanges (i : Z) : Z * Z :=
  if i =? 0 then (0x80, 0xBF)
  else if i =? 1 then (0xA0, 0xBF)
  else if i =? 2 then (0x80, 0x9F)
  else if i =? 3 then (0x90, 0xBF)
  else if i =? 4 then (0x80, 0x8F)
  else (0, 0).

Definition locb : Z := 0x80.
Definition hicb : Z := 0xBF.

(** [b < lo || hi < b]: the byte is outside the permitted range. *)
Definition cont_bad (lo hi b : Z) : bool := (b <? lo) || (hi <? b).

(** [utf8.DecodeRuneInString]: the first rune and its width in bytes;
    [(RuneError, 0)] on the empty string, [(RuneError, 1)] on an invalid
    encoding. *)
Definition DecodeRuneInString (s : string) : Z * nat :=
  match s with
  | EmptyString => (RuneError, O)
  | String c0 t =>
      let s0 := byteZ c0 in
      let x := first s0 in
      if 0xF0 <=? x then
        (* mask := rune(x) << 31 >> 31: all ones exactly when bit 0 is set *)
        ((if Z.testbit x 0 then RuneError else s0), 1%nat)
      else
        let sz := Z.to_nat (Z.land x 7) in
        let '(lo, hi) := acceptRanges (Z.shiftr x 4) in
        if (len s <? sz)%nat then (RuneError, 1%nat)
        else
          match t with
          | EmptyString => (RuneError, 1%nat)
          | String c1 t1 =>
              let s1 := byteZ c1 in
              if cont_bad lo hi s1 then (RuneError, 1%nat)
              else if (sz <=? 2)%nat then
                (Z.lor (Z.shiftl (Z.land s0 0x1F) 6) (Z.land s1 0x3F), 2%nat)
              else
                match t1 with
                | EmptyString => (RuneError, 1%nat)
                | String c2 t2 =>
                    let s2 := byteZ c2 in
                    if cont_bad locb hicb s2 then (RuneError, 1%nat)
                    else if (sz <=? 3)%nat then
                      (Z.lor (Z.lor (Z.shiftl (Z.land s0 0x0F) 12)
                                    (Z.shiftl (Z.land s1 0x3F) 6))
                             (Z.land s2 0x3F), 3%nat)
                    else
                      match t2 with
                      | EmptyString => (RuneError, 1%nat)
                      | String c3 _ =>
                          let s3 := byteZ c3 in
                          if cont_bad locb hicb s3 then (RuneError, 1%nat)
                          else
                            (Z.lor (Z.lor (Z.lor (Z.shiftl (Z.land s0 0x07) 18)
                                                 (Z.shiftl (Z.land s1 0x3F) 12))
                                          (Z.shiftl (Z.land s2 0x3F) 6))
                                   (Z.land s3 0x3F), 4%nat)
                      end
                end
          end
  end.

(** [utf8.RuneStart]: not a continuation byte. *)
Definition RuneStart (b : Z) : bool := negb (Z.land b 0xC0 =? 0x80).

(** The backwards scan of [DecodeLastRuneInString]:
    [for start--; start >= lim; start-- { if RuneStart(s[start]) { break } }],
    entered with [start] already decremented; [fuel] bounds the iterations. *)
Fixpoint back_scan (fuel : nat) (s : string) (start lim : Z) : Z :=
  match fuel with
  | O => start
  | S fuel' =>
      if start <? lim then start
      else
        match byte_at (Z.to_nat start) s with
        | Some c =>
            if RuneStart (byteZ c) then start
            else back_scan fuel' s (start - 1) lim
        | None => start
        end
  end.

(** [utf8.DecodeLastRuneInString] *)
Definition DecodeLastRuneInString (s : string) : Z * nat :=
  let end_ := Z.of_nat (len s) in
  if end_ =? 0 then (RuneError, O)
  else
    let start := end_ - 1 in
    match byte_at (Z.to_nat start) s with
    | None => (RuneError, O)
    | Some c =>
        let r := byteZ c in
        if r <? RuneSelf then (r, 1%nat)
        else
          let lim := Z.max 0 (end_ - Z.of_nat UTFMax) in
          let start := back_scan UTFMax s (start - 1) lim in
          let start := if start <? 0 then 0 else start in
          let '(r, size) :=
            DecodeRuneInString (slice_from (Z.to_nat start) s) in
          if negb (start + Z.of_nat size =? end_) then (RuneError, 1%nat)
          else (r, size)
    end.

End utf8.

Module unicode.

Definition MaxLatin1 : Z := 0xFF.

(** The [White_Space] range table, without its Latin-1 part. *)
Definition White_Space_beyond_Latin1 (r : Z) : bool :=
  (r =? 0x1680) || ((0x2000 <=? r) && (r <=? 0x200A))
  || ((0x2028 <=? r) && (r <=? 0x2029)) || (r =? 0x202F)
  || (r =? 0x205F) || (r =? 0x3000).

(** [unicode.IsSpace] *)
Definition IsSpace (r : Z) : bool :=
  if (0 <=? r) && (r <=? MaxLatin1) then
    (r =? 0x09) || (r =? 0x0A) || (r =? 0x0B) || (r =? 0x0C) || (r =? 0x0D)
    || (r =? 0x20) || (r =? 0x85) || (r =? 0xA0)
  else White_Space_beyond_Latin1 r.

End unicode.

(** ** [strings.TrimSpace] and the functions it is built from *)

Module strings.

(** The [asciiSpace] table. *)
Definition asciiSpace (c : Z) : bool :=
  (c =? 0x09) || (c =? 0x0A) || (c =? 0x0B) || (c =? 0x0C) || (c =? 0x0D)
  || (c =? 0x20).

(** [indexFunc(s, f, false)]: offset of the first rune not satisfying [f],
    ranging over the runes of [s] from offset [i]. *)
Fixpoint indexFunc_from (fuel : nat) (i : Z) (s : string)
    (f : Z -> bool) : Z :=
  match fuel with
  | O => -1
  | S fuel' =>
      match s with
      | EmptyString => -1
      | String _ _ =>
          let '(r, size) := utf8.DecodeRuneInString s in
          if negb (f r) then i
          else indexFunc_from fuel' (i + Z.of_nat size)
                 (slice_from size s) f
      end
  end.

Definition indexFunc (s : string) (f : Z -> bool) : Z :=
  indexFunc_from (len s) 0 s f.

(** [lastIndexFunc(s, f, false)]:
    [for i := len(s); i > 0; { r, size := DecodeLastRuneInString(s[0:i]);
       i -= size; if !f(r) { return i } }; return -1]. *)
Fixpoint lastIndexFunc_from (fuel : nat) (i : nat) (s : string)
    (f : Z -> bool) : Z :=
  match fuel with
  | O => -1
  | S fuel' =>
      if (0 <? i)%nat then
        let '(r, size) := utf8.DecodeLastRuneInString (slice_to i s) in
        let i' := (i - size)%nat in
        if negb (f r) then Z.of_nat i'
        else lastIndexFunc_from fuel' i' s f
      else -1
  end.

Definition lastIndexFunc (s : string) (f : Z -> bool) : Z :=
  lastIndexFunc_from (len s) (len s) s f.

(** [strings.TrimLeftFunc] *)
Definition TrimLeftFunc (s : string) (f : Z -> bool) : string :=
  let i := indexFunc s f in
  if i =? -1 then EmptyString else slice_from (Z.to_nat i) s.

(** [strings.TrimRightFunc] *)
Definition TrimRightFunc (s : string) (f : Z -> bool) : string :=
  let i := lastIndexFunc s f in
  let i :=
    if (0 <=? i)
       && match byte_at (Z.to_nat i) s with
          | Some c => utf8.RuneSelf <=? byteZ c
          | None => false
          end
    then i + Z.of_nat (snd (utf8.DecodeRuneInString (slice_from (Z.to_nat i) s)))
    else i + 1 in
  slice_to (Z.to_nat i) s.

(** [strings.TrimFunc] *)
Definition TrimFunc (s : string) (f : Z -> bool) : string :=
  TrimRightFunc (TrimLeftFunc s f) f.

(** The second loop of [TrimSpace], scanning [t = s[start:]] from its end:
    [stop] counts the bytes of [t] still kept. *)
Fixpoint trim_right_ascii (stop : nat) (t : string) : string :=
  match stop with
  | O => EmptyString
  | S stop' =>
      match byte_at stop' t with
      | None => EmptyString
      | Some c =>
          if utf8.RuneSelf <=? byteZ c then
            TrimRightFunc (slice_to stop t) unicode.IsSpace
          else if asciiSpace (byteZ c) then trim_right_ascii stop' t
          else slice_to stop t
      end
  end.

(** [strings.TrimSpace]: the ASCII fast path from the left, falling back to
    [TrimFunc] on the first non-ASCII byte, then the same from the right. *)
Fixpoint TrimSpace (s : string) : string :=
  match s with
  | EmptyString => EmptyString
  | String c t =>
      if utf8.RuneSelf <=? byteZ c then TrimFunc s unicode.IsSpace
      else if asciiSpace (byteZ c) then TrimSpace t
      else trim_right_ascii (len s) s
  end.

End strings.

Import strings.

(** ** Regular expressions ([regexp])

    The fragment of the RE2 syntax that the three patterns of [NewParser]
    use: literals, one-character classes, greedy repetition of a class,
    concatenation, alternation, capture groups and the text anchors.

    Go's [regexp] returns the match that a backtracking search would find
    first (leftmost, then by the preference order of the operators); [exec]
    is that search, written with a continuation for the rest of the pattern.
    Go matches runes where this model matches bytes.  For the patterns below
    both give the same spans: every class is either ASCII-only or contains
    every non-ASCII rune together with every byte above 0x7F, and each
    variable-length piece is delimited by an ASCII byte or by the end of the
    text, which are always rune boundaries. *)

Module regexp.

Inductive Regexp : Type :=
| Literal (l : string)
| CharClass (p : ascii -> bool)
| Star (p : ascii -> bool)
| Concat (a b : Regexp)
| Alternate (a b : Regexp)
| Capture (i : nat) (a : Regexp)
| BeginText
| EndText.

(** [x+] is [xx*] *)
Definition Plus (p : ascii -> bool) : Regexp := Concat (CharClass p) (Star p).

Fixpoint NumSubexp (re : Regexp) : nat :=
  match re with
  | Concat a b | Alternate a b => NumSubexp a `max` NumSubexp b
  | Capture i a => i `max` NumSubexp a
  | _ => O
  end.

(** The text captured so far, by group number. *)
Abbreviation captures := (gmap nat string).

(** Continuation: offset reached, text left, captures. *)
Definition cont : Type := nat -> string -> captures -> option captures.

(** Greedy repetition: the longest run first, then shorter ones. *)
Fixpoint star (p : ascii -> bool) (pos : nat) (s : string)
    (k : nat -> string -> option captures) : option captures :=
  match s with
  | String c t =>
      if p c then
        match star p (S pos) t k with
        | Some r => Some r
        | None => k pos s
        end
      else k pos s
  | EmptyString => k pos s
  end.

Fixpoint exec (re : Regexp) (pos : nat) (s : string) (caps : captures)
    (k : cont) : option captures :=
  match re with
  | Literal l =>
      if HasPrefix s l then k (pos + len l)%nat (slice_from (len l) s) caps
      else None
  | CharClass p =>
      match s with
      | String c t => if p c then k (S pos) t caps else None
      | EmptyString => None
      end
  | Star p => star p pos s (fun pos' s' => k pos' s' caps)
  | Concat a b =>
      exec a pos s caps (fun pos' s' caps' => exec b pos' s' caps' k)
  | Alternate a b =>
      match exec a pos s caps k with
      | Some r => Some r
      | None => exec b pos s caps k
      end
  | Capture i a =>
      exec a pos s caps
        (fun pos' s' caps' =>
           k pos' s' (<[i := slice_to (pos' - pos) s]> caps'))
  | BeginText => if (pos =? 0)%nat then k pos s caps else None
  | EndText =>
      match s with
      | EmptyString => k pos s caps
      | String _ _ => None
      end
  end.

(** A match starting at offset [pos]; group 0 is the whole match. *)
Definition match_at (re : Regexp) (pos : nat) (s : string)
    : option captures :=
  exec re pos s ∅
    (fun pos' _ caps => Some (<[O := slice_to (pos' - pos) s]> caps)).

(** The leftmost match. *)
Fixpoint search (re : Regexp) (pos : nat) (s : string) : option captures :=
  match match_at re pos s with
  | Some caps => Some caps
  | None =>
      match s with
      | String _ t => search re (S pos) t
      | EmptyString => None
      end
  end.

(** [Regexp.FindStringSubmatch]: the whole match followed by the text
    of each group (empty for a group that took no part); [nil] when there
    is no match. *)
Definition FindStringSubmatch (re : Regexp) (s : string) : list string :=
  match search re O s with
  | Some caps => (fun i => default EmptyString (caps !! i)) <$> seq 0 (S (NumSubexp re))
  | None => []
  end.

(** [Regexp.MatchString] *)
Definition MatchString (re : Regexp) (s : string) : bool :=
  bool_decide (is_Some (search re O s)).

(** *** Character classes *)

Definition chr (n : nat) : ascii := ascii_of_nat n.

(** [.]: any character but a line feed *)
Definition any_char_not_nl (c : ascii) : bool := negb (bool_decide (c = chr 10)).
(** [\s]: [[\t\n\f\r ]] *)
Definition perl_space (c : ascii) : bool :=
  bool_decide (c = chr 9) || bool_decide (c = chr 10)
  || bool_decide (c = chr 12) || bool_decide (c = chr 13)
  || bool_decide (c = " "%char).
(** [\S] *)
Definition perl_not_space (c : ascii) : bool := negb (perl_space c).
(** [[^x]] *)
Definition not_char (x c : ascii) : bool := negb (bool_decide (c = x)).
(** [[0-9]] *)
Definition digit (c : ascii) : bool :=
  (48 <=? byteZ c) && (byteZ c <=? 57).

End regexp.

Import regexp.

(** ** [parser.go]: the data model *)

(** [type OSDistro int] with its [iota] constants. *)
Abbreviation OSDistro := Z (only parsing).
Definition DistroUnknown : OSDistro := 0.
Definition DistroUbuntu : OSDistro := 1.
Definition DistroAzureLinux : OSDistro := 2.
Definition DistroMariner : OSDistro := 3.

Record OSPackage : Type := { Name : string; Version : string }.

(** The field [Name] of the Go struct; record fields share one name space
    here, hence [ImageName], and [OSName] and [OSVersion] below. *)
Record ContainerImage : Type := { ImageName : string }.

Record OSRelease : Type := {
  OSName : string;
  VersionID : string;
  OSVersion : string;
  PrettyName : string;
  ID : string;
  Distro : OSDistro
}.

(** The compiled patterns of [NewParser]. *)

(** [^([^/]+)/.*,now\s+(\S+)\s+\S+\s+\[.*\]] *)
Definition ubuntuRegex : Regexp :=
  Concat BeginText
  (Concat (Capture 1 (Plus (not_char "/")))
  (Concat (Literal "/")
  (Concat (Star any_char_not_nl)
  (Concat (Literal ",now")
  (Concat (Plus perl_space)
  (Concat (Capture 2 (Plus perl_not_space))
  (Concat (Plus perl_space)
  (Concat (Plus perl_not_space)
  (Concat (Plus perl_space)
  (Concat (Literal "[")
  (Concat (Star any_char_not_nl)
          (Literal "]")))))))))))).

(** [^(.+)-([^-]+\.(azl3|cm2)\.(x86_64|noarch))$] *)
Definition rpmRegex : Regexp :=
  Concat BeginText
  (Concat (Capture 1 (Plus any_char_not_nl))
  (Concat (Literal "-")
  (Concat (Capture 2
            (Concat (Plus (not_char "-"))
            (Concat (Literal ".")
            (Concat (Capture 3 (Alternate (Literal "azl3") (Literal "cm2")))
            (Concat (Literal ".")
                    (Capture 4 (Alternate (Literal "x86_64") (Literal "noarch"))))))))
          EndText))).

(** [^(.+)-(V)$] where [V] is [[0-9]] followed by [.*] *)
Definition nameVersionRpm : Regexp :=
  Concat BeginText
  (Concat (Capture 1 (Plus any_char_not_nl))
  (Concat (Literal "-")
  (Concat (Capture 2 (Concat (CharClass digit) (Star any_char_not_nl)))
          EndText))).

(** ** [parser.go]: the line classifiers *)

(** [parsePackageLine]: the APT pattern first, then the RPM pattern. *)
Definition parsePackageLine (line : string) : option OSPackage :=
  if streq line "" then None
  else
    let matches := FindStringSubmatch ubuntuRegex line in
    if (3 <=? length matches)%nat then
      Some {| Name := nth 1 matches ""; Version := nth 2 matches "" |}
    else
      let matches := FindStringSubmatch rpmRegex line in
      if (3 <=? length matches)%nat then
        let namePart := nth 1 matches "" in
        let versionPart := nth 2 matches "" in
        let idx := LastIndex versionPart "." in
        let releaseVersion :=
          if negb (idx =? -1) then
            let arch := slice_from (Z.to_nat (idx + 1)) versionPart in
            if streq arch "x86_64" || streq arch "noarch"
            then slice_to (Z.to_nat idx) versionPart
            else versionPart
          else versionPart in
        let nameVersionMatches := FindStringSubmatch nameVersionRpm namePart in
        if (3 <=? length nameVersionMatches)%nat then
          Some {| Name := nth 1 nameVersionMatches "";
                  Version := nth 2 nameVersionMatches "" +:+ "-" +:+ releaseVersion |}
        else
          Some {| Name := namePart; Version := releaseVersion |}
      else None.

(** The double quote character. *)
Definition dquote : ascii := chr 34.

(** [parseOSReleaseLine]: updates the key/value map; only the five fields
    of interest are stored. *)
Definition parseOSReleaseLine (line : string) (data : gmap string string)
    : gmap string string :=
  if streq line "" then data
  else
    let idx := Index line "=" in
    if 0 <? idx then
      let key := TrimSpace (slice_to (Z.to_nat idx) line) in
      let value := TrimSpace (slice_from (Z.to_nat (idx + 1)) line) in
      let value :=
        if (2 <=? len value)%nat
           && bool_decide (byte_at 0 value = Some dquote)
           && bool_decide (byte_at (len value - 1) value = Some dquote)
        then slice_to (len value - 2) (slice_from 1 value)
        else value in
      if streq key "NAME" || streq key "VERSION_ID" || streq key "VERSION"
         || streq key "PRETTY_NAME" || streq key "ID"
      then <[key := value]> data
      else data
    else data.

(** [parseContainerImageLine] *)
Definition parseContainerImageLine (line : string) : option ContainerImage :=
  if streq line "" then None
  else if negb (HasPrefix line "  - ") then None
  else
    let imageName := TrimSpace (TrimPrefix line "  - ") in
    if streq imageName "" then None
    else Some {| ImageName := imageName |}.

Definition isUbuntuPackageFormat (line : string) : bool :=
  MatchString ubuntuRegex line.

Definition isRPMPackageFormat (line : string) : bool :=
  MatchString rpmRegex line.

(** [detectDistroFromID] *)
Definition detectDistroFromID (id : string) : OSDistro :=
  if streq id "ubuntu" || streq id "debian" then DistroUbuntu
  else if streq id "azurelinux" then DistroAzureLinux
  else if streq id "mariner" then DistroMariner
  else DistroUnknown.

(** ** [parser.go]: [Parse] *)

(** A Go [int] on the 64-bit targets: [c++] wraps around. *)
Definition int_wrap (z : Z) : Z := (z + 2 ^ 63) mod 2 ^ 64 - 2 ^ 63.
Definition incr (c : Z) : Z := int_wrap (c + 1).

(** The variables of [Parse] that live across loop iterations:
    [result.Packages], [result.ContainerImages] and the locals. *)
Record ScanState : Type := {
  Packages : list OSPackage;
  ContainerImages : list ContainerImage;
  inPackageSection : bool;
  inOSReleaseSection : bool;
  inContainerImagesSection : bool;
  osReleaseData : gmap string string;
  ubuntuPackageCount : Z;
  rpmPackageCount : Z
}.

Definition initState : ScanState :=
  {| Packages := []; ContainerImages := [];
     inPackageSection := false; inOSReleaseSection := false;
     inContainerImagesSection := false;
     osReleaseData := ∅;
     ubuntuPackageCount := 0; rpmPackageCount := 0 |}.

Definition set_flags (st : ScanState) (p o c : bool) : ScanState :=
  {| Packages := Packages st; ContainerImages := ContainerImages st;
     inPackageSection := p; inOSReleaseSection := o;
     inContainerImagesSection := c;
     osReleaseData := osReleaseData st;
     ubuntuPackageCount := ubuntuPackageCount st;
     rpmPackageCount := rpmPackageCount st |}.

Definition add_package (st : ScanState) (pkg : OSPackage) (u r : Z) : ScanState :=
  {| Packages := Packages st ++ [pkg]; ContainerImages := ContainerImages st;
     inPackageSection := inPackageSection st;
     inOSReleaseSection := inOSReleaseSection st;
     inContainerImagesSection := inContainerImagesSection st;
     osReleaseData := osReleaseData st;
     ubuntuPackageCount := u; rpmPackageCount := r |}.

Definition add_image (st : ScanState) (image : ContainerImage) : ScanState :=
  {| Packages := Packages st; ContainerImages := ContainerImages st ++ [image];
     inPackageSection := inPackageSection st;
     inOSReleaseSection := inOSReleaseSection st;
     inContainerImagesSection := inContainerImagesSection st;
     osReleaseData := osReleaseData st;
     ubuntuPackageCount := ubuntuPackageCount st;
     rpmPackageCount := rpmPackageCount st |}.

Definition set_data (st : ScanState) (data : gmap string string) : ScanState :=
  {| Packages := Packages st; ContainerImages := ContainerImages st;
     inPackageSection := inPackageSection st;
     inOSReleaseSection := inOSReleaseSection st;
     inContainerImagesSection := inContainerImagesSection st;
     osReleaseData := data;
     ubuntuPackageCount := ubuntuPackageCount st;
     rpmPackageCount := rpmPackageCount st |}.

(** The part of the loop body after the marker [switch]: the line goes to
    the classifier of the active section. *)
Definition classify (st : ScanState) (line trimmedLine : string) : ScanState :=
  if inPackageSection st then
    match parsePackageLine trimmedLine with
    | Some pkg =>
        if isUbuntuPackageFormat trimmedLine then
          add_package st pkg (incr (ubuntuPackageCount st)) (rpmPackageCount st)
        else if isRPMPackageFormat trimmedLine then
          add_package st pkg (ubuntuPackageCount st) (incr (rpmPackageCount st))
        else
          add_package st pkg (ubuntuPackageCount st) (rpmPackageCount st)
    | None => st
    end
  else if inOSReleaseSection st then
    set_data st (parseOSReleaseLine trimmedLine (osReleaseData st))
  else if inContainerImagesSection st then
    if HasPrefix line "  - " then
      match parseContainerImageLine line with
      | Some image => add_image st image
      | None => st
      end
    else if negb (streq trimmedLine "") then
      set_flags st (inPackageSection st) (inOSReleaseSection st) false
    else st
  else st.

(** One iteration of the scanning loop of [Parse]. *)
Definition scanLine (st : ScanState) (line : string) : ScanState :=
  let trimmedLine := TrimSpace line in
  if streq trimmedLine "=== Installed Packages Begin" then
    set_flags st true false false
  else if streq trimmedLine "=== Installed Packages End" then
    set_flags st false (inOSReleaseSection st) (inContainerImagesSection st)
  else if streq trimmedLine "=== os-release Begin" then
    set_flags st false true false
  else if streq trimmedLine "=== os-release End" then
    set_flags st (inPackageSection st) false (inContainerImagesSection st)
  else if streq trimmedLine "containerd images pre-pulled:" then
    set_flags st false false true
  else if (streq trimmedLine "" || streq trimmedLine "Listing...")
          && (inPackageSection st || inOSReleaseSection st
              || inContainerImagesSection st)
  then st
  else classify st line trimmedLine.

(** The whole loop: [for scanner.Scan() { ... }]. *)
Definition scanLines (st : ScanState) (lines : list string) : ScanState :=
  foldl scanLine st lines.

(** [osReleaseData[key]]: the zero value for an absent key. *)
Definition field (data : gmap string string) (key : string) : string :=
  default "" (data !! key).

(** The distro decision of [Parse]: the os-release [ID] when there is
    os-release data, then the package counts while the answer is still
    [DistroUnknown]. *)
Definition detectDistro (data : gmap string string)
    (ubuntuCount rpmCount : Z) : OSDistro :=
  let detectedDistro :=
    if (0 <? size data)%nat then detectDistroFromID (field data "ID")
    else DistroUnknown in
  if detectedDistro =? DistroUnknown then
    if rpmCount >? ubuntuCount then DistroAzureLinux
    else if ubuntuCount >? rpmCount then DistroUbuntu
    else detectedDistro
  else detectedDistro.

(** [ParseResult], with the fields [Packages], [ContainerImages] and
    [OSRelease] of the Go struct. *)
Record ParseResult : Type := {
  ResultPackages : list OSPackage;
  ResultContainerImages : list ContainerImage;
  ResultOSRelease : option OSRelease
}.

(** What the [bufio.Scanner] over the reader delivers: the lines it yields
    (a line holds no line feed) and the error [scanner.Err()] reports when
    the scan stops, if any. *)
Record Reader : Type := {
  scanned : list string;
  scanErr : option string
}.

Inductive error : Type :=
| errReaderNil
| errReading (cause : string)
| ErrNoPackageSection.

(** The code after the loop, from the distro decision to the return. *)
Definition finish (st : ScanState) : option ParseResult * option error :=
  let detectedDistro :=
    detectDistro (osReleaseData st) (ubuntuPackageCount st) (rpmPackageCount st) in
  let data := osReleaseData st in
  let result :=
    {| ResultPackages := Packages st;
       ResultContainerImages := ContainerImages st;
       ResultOSRelease :=
         if (0 <? size data)%nat then
           Some {| OSName := field data "NAME";
                   VersionID := field data "VERSION_ID";
                   OSVersion := field data "VERSION";
                   PrettyName := field data "PRETTY_NAME";
                   ID := field data "ID";
                   Distro := detectedDistro |}
         else None |} in
  if (length (ResultPackages result) =? 0)%nat
     && (length (ResultContainerImages result) =? 0)%nat
     && bool_decide (ResultOSRelease result = None)
  then (Some result, Some ErrNoPackageSection)
  else (Some result, None).

(** [Parse]: a nil reader and a read error give no result; otherwise the
    result comes with [ErrNoPackageSection] or with no error. *)
Definition Parse (reader : option Reader) : option ParseResult * option error :=
  match reader with
  | None => (None, Some errReaderNil)
  | Some rd =>
      let st := scanLines initState (scanned rd) in
      match scanErr rd with
      | Some cause => (None, Some (errReading cause))
      | None => finish st
      end
  end.

(** The section tracker as the specification names its states.  The three
    flags are read in the order in which [classify] tests them. *)
Inductive TrackerState : Type :=
| SecNone
| InPackages
| InOSRelease
| InContainerImages.

Definition tracker (st : ScanState) : TrackerState :=
  if inPackageSection st then InPackages
  else if inOSReleaseSection st then InOSRelease
  else if inContainerImagesSection st then InContainerImages
  else SecNone.

(** At most one of the three flags is set. *)
Definition exclusive (st : ScanState) : Prop :=
  (inPackageSection st = false ∧ inOSReleaseSection st = false)
  ∨ (inPackageSection st = false ∧ inContainerImagesSection st = false)
  ∨ (inOSReleaseSection st = false ∧ inContainerImagesSection st = false).

(** ** [main.go]: [isPackageFixed]

    The two version libraries, [go-deb-version] and [go-rpm-version], are
    dependencies from outside the repository; [isPackageFixed] is embedded
    over their interfaces. *)

(** [debversion]: [NewVersion] can fail ([None]); [Compare] returns a
    negative number, zero or a positive number. *)
Class DebVersionLib : Type := {
  deb_version : Type;
  deb_NewVersion : string -> option deb_version;
  deb_Compare : deb_version -> deb_version -> Z
}.

(** [rpmversion]: [NewVersion] cannot fail. *)
Class RpmVersionLib : Type := {
  rpm_version : Type;
  rpm_NewVersion : string -> rpm_version;
  rpm_Compare : rpm_version -> rpm_version -> Z
}.

Section FixVersion.

Context {deb : DebVersionLib} {rpm : RpmVersionLib}.

Definition isPackageFixed (pkgVersion fixedVersion : string)
    (distro : OSDistro) : bool :=
  if streq fixedVersion "" then false
  else if distro =? DistroUbuntu then
    match deb_NewVersion pkgVersion with
    | None => false
    | Some pkgVer =>
        match deb_NewVersion fixedVersion with
        | None => false
        | Some fixedVer => deb_Compare pkgVer fixedVer >=? 0
        end
    end
  else if (distro =? DistroAzureLinux) || (distro =? DistroMariner) then
    rpm_Compare (rpm_NewVersion pkgVersion) (rpm_NewVersion fixedVersion) >=? 0
  else false.

(** [a >= b] under each ordering. *)
Definition deb_ge (a b : deb_version) : Prop := deb_Compare a b >= 0.
Definition rpm_ge (a b : rpm_version) : Prop := rpm_Compare a b >= 0.

End FixVersion.

(** A stand-in for the two libraries on versions that are one decimal
    number, where the Debian and the RPM orderings are both the numeric
    one.  It serves to run [isPackageFixed] on concrete inputs. *)
Module NumericVersions.

Fixpoint decimal (acc : N) (s : string) : option N :=
  match s with
  | EmptyString => Some acc
  | String c t =>
      if digit c then decimal (acc * 10 + (N_of_ascii c - 48))%N t
      else None
  end.

Definition parse (s : string) : option N :=
  if streq s "" then None else decimal 0%N s.

Definition compare (a b : N) : Z :=
  match N.compare a b with
  | Lt => -1
  | Eq => 0
  | Gt => 1
  end.

Definition deb : DebVersionLib :=
  {| deb_version := N; deb_NewVersion := parse; deb_Compare := compare |}.

Definition rpm : RpmVersionLib :=
  {| rpm_version := N;
     rpm_NewVersion := fun s => default 0%N (parse s);
     rpm_Compare := compare |}.

End NumericVersions.

(** ** The policies of the specification, in its own words *)

(** The four [ID] values the specification maps to a distro. *)
Definition recognizedID (id : string) : bool :=
  streq id "ubuntu" || streq id "debian" || streq id "azurelinux" || streq id "mariner".

(** The counter comparison: strictly more RPM matches, AzureLinux; strictly
    more APT matches, Ubuntu/Debian; equal, Unknown. *)
Definition counterVote (aptMatches rpmMatches : Z) : OSDistro :=
  if rpmMatches >? aptMatches then DistroAzureLinux
  else if aptMatches >? rpmMatches then DistroUbuntu
  else DistroUnknown.

(** The marker lines of the specification. *)
Definition isMarker (trimmedLine : string) : bool :=
  streq trimmedLine "=== Installed Packages Begin"
  || streq trimmedLine "=== Installed Packages End"
  || streq trimmedLine "=== os-release Begin"
  || streq trimmedLine "=== os-release End"
  || streq trimmedLine "containerd images pre-pulled:".

(** A reader that delivers the given lines and no error. *)
Definition linesReader (lines : list string) : option Reader :=
  Some {| scanned := lines; scanErr := None |}.

(** ** Notions used to state the properties *)

(** Every character of the text is in the class. *)
Fixpoint all (p : ascii -> bool) (s : string) : bool :=
  match s with
  | EmptyString => true
  | String c t => p c && all p t
  end.

(** A split of the name part at a hyphen that has text before it and a
    digit right after it. *)
Definition digitSplit (namePart name upstream : string) : Prop :=
  namePart = name +:+ "-" +:+ upstream /\ name <> ""
  /\ exists c t, upstream = String c t /\ digit c = true.

(** The split at the last such hyphen. *)
Definition lastDigitSplit (namePart name upstream : string) : Prop :=
  digitSplit namePart name upstream
  /\ forall name' upstream',
       digitSplit namePart name' upstream' -> (len name' <= len name)%nat.

(** What remains of [nameVersionRpm] after the first group has taken the
    first [pos] bytes of [namePart]. *)
Definition nameVersion_rest (namePart : string) : cont :=
  fun pos s caps =>
    exec (Concat (Literal "-")
            (Concat (Capture 2 (Concat (CharClass digit) (Star any_char_not_nl)))
                    EndText))
      pos s (<[1%nat := slice_to (pos - 0) namePart]> caps)
      (fun pos' _ caps' => Some (<[O := slice_to (pos' - 0) namePart]> caps')).

(** What remains of [rpmRegex] after the first group has taken the first
    [pos] bytes of [line]. *)
Definition rpm_rest (line : string) : cont :=
  fun pos s caps =>
    exec (Concat (Literal "-")
            (Concat (Capture 2
                      (Concat (Plus (not_char "-"))
                      (Concat (Literal ".")
                      (Concat (Capture 3 (Alternate (Literal "azl3") (Literal "cm2")))
                      (Concat (Literal ".")
                              (Capture 4 (Alternate (Literal "x86_64") (Literal "noarch"))))))))
                    EndText))
      pos s (<[1%nat := slice_to (pos - 0) line]> caps)
      (fun pos' _ caps' => Some (<[O := slice_to (pos' - 0) line]> caps')).





(** A value between double quotes. *)
Definition quoted (value : string) : string :=
  String dquote (value +:+ String dquote "").

(** The first input of [TestParser_Parse]. *)
Definition full_build_output : list string :=
  [ "Starting build";
    "=== Installed Packages Begin";
    "adduser/noble,now 3.137ubuntu1 all [installed,automatic]";
    "filesystem-1.1-21.azl3.x86_64";
    "=== Installed Packages End";
    "containerd images pre-pulled:";
    "  - mcr.microsoft.com/oss/kubernetes/pause:3.6";
    "  - mcr.microsoft.com/containernetworking/azure-cni:v1.4.59";
    "  - mcr.microsoft.com/oss/v2/kubernetes/coredns:v1.11.3-8";
    "Successfully copied coredns binary";
    "=== os-release Begin";
    "NAME=" +:+ quoted "Microsoft Azure Linux";
    "VERSION=" +:+ quoted "3.0.20250602";
    "ID=azurelinux";
    "VERSION_ID=" +:+ quoted "3.0";
    "PRETTY_NAME=" +:+ quoted "Microsoft Azure Linux 3.0";
    "HOME_URL=" +:+ quoted "https://aka.ms/azurelinux";
    "=== os-release End" ].

(** The input of the counterexample to C1: one RPM package line, and an
    os-release section whose [ID] is not a recognized one. *)
Definition fedora_input : list string :=
  [ "=== Installed Packages Begin";
    "filesystem-1.1-21.azl3.x86_64";
    "=== Installed Packages End";
    "=== os-release Begin";
    "ID=fedora";
    "=== os-release End" ].

(** ** [parser.go] and [main.go]: the remaining functions *)

(** [OSDistro.String] *)
Definition OSDistro_String (d : OSDistro) : string :=
  if d =? DistroUbuntu then "Ubuntu/Debian"
  else if d =? DistroAzureLinux then "Azure Linux"
  else if d =? DistroMariner then "CBL-Mariner"
  else "Unknown".

(** [OSPackage.String]: [fmt.Sprintf] of the name and the version around a
    hyphen. *)
Definition OSPackage_String (p : OSPackage) : string :=
  Name p +:+ "-" +:+ Version p.

(** The advisory sources of [trivy-db], from outside the repository: the
    advisory type with its [FixedVersion] field, and the [Get] method of the
    three sources [checkPackageVulnerabilities] builds, which returns the
    advisories of a package in an OS version, and an error or none. *)
Class VulnSources : Type := {
  Advisory : Type;
  FixedVersion : Advisory -> string;
  ubuntu_Get : string -> string -> list Advisory * option string;
  azure_Get : string -> string -> list Advisory * option string;
  mariner_Get : string -> string -> list Advisory * option string
}.

Section Vulnerabilities.

Context {deb : DebVersionLib} {rpm : RpmVersionLib} {src : VulnSources}.

(** [checkPackageVulnerabilities]: the advisories the installed version
    does not fix and no error, or no advisory and the error message. *)
Definition checkPackageVulnerabilities (pkg : OSPackage)
    (osRelease : option OSRelease) : list Advisory * option string :=
  match osRelease with
  | None =>
      ([], Some "OS release information required for vulnerability checking")
  | Some os =>
      let queried :=
        if Distro os =? DistroUbuntu then
          Some (ubuntu_Get (VersionID os) (Name pkg))
        else if Distro os =? DistroAzureLinux then
          Some (azure_Get (VersionID os) (Name pkg))
        else if Distro os =? DistroMariner then
          Some (mariner_Get (VersionID os) (Name pkg))
        else None in
      match queried with
      | None =>
          ([], Some ("unsupported distribution: "
                     +:+ OSDistro_String (Distro os)))
      | Some (_, Some err) => ([], Some err)
      | Some (allVulns, None) =>
          (List.filter
             (fun vuln =>
                negb (isPackageFixed (Version pkg) (FixedVersion vuln)
                        (Distro os)))
             allVulns,
           None)
      end
  end.

End Vulnerabilities.

(** A stand-in for the advisory sources: an advisory is an identifier and a
    fixed version; the sources answer for one package only.  It serves to
    run [checkPackageVulnerabilities] on concrete inputs. *)
Module SampleSources.

Definition advisories : list (string * string) :=
  [("CVE-1", "5"); ("CVE-2", "20"); ("CVE-3", "")].

Definition get (versionID name : string) : list (string * string) * option string :=
  if streq name "openssl" then (advisories, None)
  else ([], Some "no such package").

Definition src : VulnSources :=
  {| Advisory := string * string; FixedVersion := snd;
     ubuntu_Get := get; azure_Get := get; mariner_Get := get |}.

End SampleSources.

(** The five os-release keys that are stored. *)
Definition osReleaseKeys : gset string :=
  {[ "NAME"; "VERSION_ID"; "VERSION"; "PRETTY_NAME"; "ID" ]}.

(** * Properties *)

(** ** The tests of the repository, run on the embedding *)

(** [TestParser_parsePackageLine] *)
Example test_parsePackageLine :
  parsePackageLine "adduser/noble,now 3.137ubuntu1 all [installed,automatic]"
  = Some {| Name := "adduser"; Version := "3.137ubuntu1" |}
  /\ parsePackageLine
       "apparmor/noble-updates,now 4.0.1really4.0.1-0ubuntu0.24.04.4 amd64 [installed,automatic]"
     = Some {| Name := "apparmor";
               Version := "4.0.1really4.0.1-0ubuntu0.24.04.4" |}
  /\ parsePackageLine
       "bind9-dnsutils/noble-updates,noble-security,now 1:9.18.30-0ubuntu0.24.04.2 amd64 [installed]"
     = Some {| Name := "bind9-dnsutils";
               Version := "1:9.18.30-0ubuntu0.24.04.2" |}
  /\ parsePackageLine "filesystem-1.1-21.azl3.x86_64"
     = Some {| Name := "filesystem"; Version := "1.1-21.azl3" |}
  /\ parsePackageLine "cloud-init-azure-kvp-24.3.1-1.azl3.noarch"
     = Some {| Name := "cloud-init-azure-kvp"; Version := "24.3.1-1.azl3" |}
  /\ parsePackageLine "kernel-devel-5.15.167.4-1.azl3.x86_64"
     = Some {| Name := "kernel-devel"; Version := "5.15.167.4-1.azl3" |}
  /\ parsePackageLine "glibc-2.38-10.azl3.x86_64"
     = Some {| Name := "glibc"; Version := "2.38-10.azl3" |}
  /\ parsePackageLine "filesystem-1.1-20.cm2.x86_64"
     = Some {| Name := "filesystem"; Version := "1.1-20.cm2" |}
  /\ parsePackageLine "cloud-init-azure-kvp-24.3.1-1.cm2.noarch"
     = Some {| Name := "cloud-init-azure-kvp"; Version := "24.3.1-1.cm2" |}
  /\ parsePackageLine "" = None
  /\ parsePackageLine "   " = None
  /\ parsePackageLine "invalid package line" = None.
Proof. vm_compute. repeat split; reflexivity. Qed.

(** [TestParser_parseContainerImageLine] *)
Example test_parseContainerImageLine :
  parseContainerImageLine "  - mcr.microsoft.com/oss/kubernetes/pause:3.6"
  = Some {| ImageName := "mcr.microsoft.com/oss/kubernetes/pause:3.6" |}
  /\ parseContainerImageLine "  - mcr.microsoft.com/oss/kubernetes/pause"
     = Some {| ImageName := "mcr.microsoft.com/oss/kubernetes/pause" |}
  /\ parseContainerImageLine "" = None
  /\ parseContainerImageLine "  - " = None
  /\ parseContainerImageLine "mcr.microsoft.com/oss/kubernetes/pause:3.6"
     = None.
Proof. vm_compute. repeat split; reflexivity. Qed.

(** [TestParser_parseOSReleaseLine] *)
Example test_parseOSReleaseLine :
  parseOSReleaseLine ("NAME=" +:+ quoted "Microsoft Azure Linux") ∅
  = {[ "NAME" := "Microsoft Azure Linux" ]}
  /\ parseOSReleaseLine "VERSION_ID=3.0" ∅ = {[ "VERSION_ID" := "3.0" ]}
  /\ parseOSReleaseLine "ID=azurelinux" ∅ = {[ "ID" := "azurelinux" ]}
  /\ parseOSReleaseLine ("HOME_URL=" +:+ quoted "https://aka.ms/azurelinux") ∅
     = ∅
  /\ parseOSReleaseLine "" ∅ = ∅
  /\ parseOSReleaseLine "invalid line" ∅ = ∅.
Proof. vm_compute. repeat split; reflexivity. Qed.

(** [TestParser_Parse], "Full VHD build output with OS release and
    container images" and "No sections" *)
Example test_Parse_full :
  Parse (linesReader full_build_output)
  = (Some {| ResultPackages :=
               [{| Name := "adduser"; Version := "3.137ubuntu1" |};
                {| Name := "filesystem"; Version := "1.1-21.azl3" |}];
             ResultContainerImages :=
               [{| ImageName := "mcr.microsoft.com/oss/kubernetes/pause:3.6" |};
                {| ImageName :=
                     "mcr.microsoft.com/containernetworking/azure-cni:v1.4.59" |};
                {| ImageName :=
                     "mcr.microsoft.com/oss/v2/kubernetes/coredns:v1.11.3-8" |}];
             ResultOSRelease :=
               Some {| OSName := "Microsoft Azure Linux";
                       VersionID := "3.0";
                       OSVersion := "3.0.20250602";
                       PrettyName := "Microsoft Azure Linux 3.0";
                       ID := "azurelinux";
                       Distro := DistroAzureLinux |} |},
     None).
Proof. vm_compute. reflexivity. Qed.

Example test_Parse_no_sections :
  Parse (linesReader ["Starting build"; "Components downloaded:"; "Disk usage:"])
  = (Some {| ResultPackages := []; ResultContainerImages := [];
             ResultOSRelease := None |},
     Some ErrNoPackageSection).
Proof. vm_compute. reflexivity. Qed.

(** [strings.TrimSpace] on ASCII and on Unicode white space (U+00A0,
    U+2003), and on a non-space rune (U+20AC). *)
Example test_TrimSpace :
  TrimSpace "  hello world  " = "hello world"
  /\ TrimSpace "   " = ""
  /\ TrimSpace (String (chr 194) (String (chr 160) "abc ")) = "abc"
  /\ TrimSpace ("  x" +:+ String (chr 226) (String (chr 128) (String (chr 131) " ")))
     = "x"
  /\ TrimSpace ("x" +:+ String (chr 226) (String (chr 130) (String (chr 172) " ")))
     = "x" +:+ String (chr 226) (String (chr 130) (String (chr 172) "")).
Proof. vm_compute. repeat split; reflexivity. Qed.

(** ** Strings *)

Lemma streq_true (a b : string) : streq a b = true <-> a = b.
Proof. unfold streq. apply bool_decide_eq_true. Qed.

Lemma streq_false (a b : string) : streq a b = false <-> a <> b.
Proof. unfold streq. apply bool_decide_eq_false. Qed.

(** ** Strings: concatenation and slices *)

Lemma app_cons (c : ascii) (a b : string) :
  String c a +:+ b = String c (a +:+ b).
Proof. reflexivity. Qed.

Lemma app_nil (b : string) : "" +:+ b = b.
Proof. reflexivity. Qed.

Ltac str_simpl := rewrite ?app_cons, ?app_nil in *.

Lemma app_assoc_str (a b c : string) : (a +:+ b) +:+ c = a +:+ (b +:+ c).
Proof.
  induction a as [|x a IH]; str_simpl; [reflexivity|now f_equal].
Qed.

Lemma app_empty_r (a : string) : a +:+ "" = a.
Proof.
  induction a as [|x a IH]; str_simpl; [reflexivity|now f_equal].
Qed.

Lemma len_app (a b : string) : len (a +:+ b) = (len a + len b)%nat.
Proof.
  induction a as [|x a IH]; str_simpl; simpl; [reflexivity|now f_equal].
Qed.

Lemma slice_to_app (a b : string) : slice_to (len a) (a +:+ b) = a.
Proof.
  induction a as [|x a IH]; str_simpl; simpl; [now destruct b|now f_equal].
Qed.

Lemma slice_to_len (a : string) : slice_to (len a) a = a.
Proof. induction a as [|x a IH]; simpl; [reflexivity|now f_equal]. Qed.

Lemma slice_from_app (a b : string) : slice_from (len a) (a +:+ b) = b.
Proof.
  induction a as [|x a IH]; str_simpl; simpl; [now destruct b|exact IH].
Qed.

Lemma HasPrefix_true (s l : string) :
  HasPrefix s l = true <-> s = l +:+ slice_from (len l) s.
Proof.
  revert s. induction l as [|c l IH]; intros s; str_simpl; simpl.
  - split; [now destruct s|reflexivity].
  - destruct s as [|c' t]; [split; discriminate|].
    rewrite andb_true_iff, bool_decide_eq_true, IH.
    split; [now intros [-> <-]|]. intros H. injection H as -> H. now split.
Qed.

Lemma all_app (p : ascii -> bool) (a b : string) :
  all p (a +:+ b) = all p a && all p b.
Proof.
  induction a as [|x a IH]; str_simpl; simpl; [reflexivity|].
  now rewrite IH, andb_assoc.
Qed.

(** ** White-space trimming *)

Lemma len_slice_to (n : nat) (s : string) :
  len (slice_to n s) = Nat.min n (len s).
Proof.
  revert s. induction n as [|n IH]; intros [|c t]; simpl; try reflexivity.
  now rewrite IH.
Qed.

Lemma byte_at_Some (i : nat) (s : string) :
  (i < len s)%nat -> exists c, byte_at i s = Some c.
Proof.
  revert i. induction s as [|c t IH]; intros i Hi; simpl in *; [lia|].
  destruct i as [|i]; [now exists c|]. apply IH. lia.
Qed.

Lemma back_scan_le (fuel : nat) (s : string) (start lim : Z) :
  utf8.back_scan fuel s start lim <= start.
Proof.
  revert start. induction fuel as [|fuel IH]; intros start; simpl; [lia|].
  destruct (start <? lim); [lia|].
  destruct (byte_at (Z.to_nat start) s) as [c|]; [|lia].
  destruct (utf8.RuneStart (byteZ c)); [lia|].
  specialize (IH (start - 1)). lia.
Qed.

Lemma DecodeRune_ascii (c : ascii) (t : string) :
  byteZ c < utf8.RuneSelf ->
  utf8.DecodeRuneInString (String c t) = (byteZ c, 1%nat).
Proof.
  intros Hc. unfold utf8.DecodeRuneInString, utf8.first, utf8.RuneSelf in *.
  destruct (byteZ c <? 128) eqn:E; [|apply Z.ltb_ge in E; lia].
  reflexivity.
Qed.

(** The width [DecodeLastRuneInString] reports lies between one and the
    length of the text, and reaches the length of a text that starts with
    an ASCII byte only when that text is this one byte. *)
Lemma DecodeLast_bounds (s : string) :
  s <> "" ->
  (1 <= (utf8.DecodeLastRuneInString s).2 <= len s)%nat
  /\ (forall c t, s = String c t -> byteZ c < utf8.RuneSelf ->
      (utf8.DecodeLastRuneInString s).2 = len s ->
      t = "" /\ (utf8.DecodeLastRuneInString s).1 = byteZ c).
Proof.
  intros Hne.
  assert (Hlen : (1 <= len s)%nat) by (destruct s; simpl; [congruence|lia]).
  unfold utf8.DecodeLastRuneInString.
  destruct (Z.of_nat (len s) =? 0) eqn:E0; [apply Z.eqb_eq in E0; lia|].
  destruct (byte_at_Some (Z.to_nat (Z.of_nat (len s) - 1)) s ltac:(lia))
    as [cl Hcl].
  rewrite Hcl.
  destruct (byteZ cl <? utf8.RuneSelf) eqn:Eascii.
  { simpl. split; [lia|]. intros c t -> Hc Hsz. simpl in Hsz.
    destruct t; [|simpl in Hsz; lia]. simpl in Hcl. split; [reflexivity|].
    congruence. }
  set (lim := Z.max 0 (Z.of_nat (len s) - Z.of_nat utf8.UTFMax)).
  pose proof (back_scan_le utf8.UTFMax s (Z.of_nat (len s) - 1 - 1) lim) as Hb.
  set (start0 := utf8.back_scan utf8.UTFMax s (Z.of_nat (len s) - 1 - 1) lim) in *.
  set (start := if start0 <? 0 then 0 else start0).
  assert (Hstart : 0 <= start < Z.of_nat (len s)).
  { unfold start. destruct (start0 <? 0) eqn:E; [lia|].
    apply Z.ltb_ge in E. lia. }
  destruct (utf8.DecodeRuneInString (slice_from (Z.to_nat start) s))
    as [r size] eqn:Hdec.
  destruct (start + Z.of_nat size =? Z.of_nat (len s)) eqn:Eend; simpl.
  - apply Z.eqb_eq in Eend. split; [lia|].
    intros c t -> Hc Hsz.
    assert (Hs0 : start = 0) by lia. rewrite Hs0 in Hdec.
    change (slice_from (Z.to_nat 0) (String c t)) with (String c t) in Hdec.
    rewrite (DecodeRune_ascii c t Hc) in Hdec.
    injection Hdec as <- <-. simpl in Hsz.
    destruct t; [split; reflexivity|simpl in Hsz; lia].
  - split; [clear -Hlen; lia|]. intros c t -> Hc Hsz. simpl in Hsz.
    destruct t; [|simpl in Hsz; lia]. simpl in Hcl.
    assert (cl = c) by congruence. subst cl.
    apply Z.ltb_ge in Eascii. lia.
Qed.

Section TrimHead.

(** A text that starts with an ASCII byte [c] that the trimming predicate
    [f] keeps: trimming on the right stops at this byte at the latest. *)
Variables (c : ascii) (f : Z -> bool).
Hypothesis c_ascii : byteZ c < utf8.RuneSelf.
Hypothesis c_kept : f (byteZ c) = false.

Lemma lastIndexFunc_from_found (fuel i : nat) (t : string) :
  (1 <= i <= len (String c t))%nat -> (i <= fuel)%nat ->
  0 <= lastIndexFunc_from fuel i (String c t) f.
Proof.
  revert i. induction fuel as [|fuel IH]; intros i Hi Hfuel; [lia|].
  simpl lastIndexFunc_from.
  destruct (0 <? i)%nat eqn:Epos; [|apply Nat.ltb_ge in Epos; lia].
  set (u := slice_to i (String c t)).
  assert (Hu : u <> "").
  { unfold u. destruct i; [lia|]. discriminate. }
  assert (Hlenu : len u = i).
  { unfold u. rewrite len_slice_to. lia. }
  destruct (DecodeLast_bounds u Hu) as [Hsz Hfull].
  destruct (utf8.DecodeLastRuneInString u) as [r size] eqn:Hdec.
  simpl in Hsz.
  destruct (f r) eqn:Hfr; simpl; [|lia].
  apply IH; [|lia].
  split; [|simpl in *; lia].
  destruct (Nat.eq_dec size i) as [Heq|Hneq]; [|lia].
  exfalso.
  assert (Hu' : u = String c (slice_to (i - 1) t)).
  { unfold u. destruct i; [lia|]. simpl. now rewrite Nat.sub_0_r. }
  destruct (Hfull c _ Hu' c_ascii) as [_ Hr].
  { simpl. lia. }
  simpl in Hr. congruence.
Qed.

Lemma TrimRightFunc_head (t : string) :
  exists t', TrimRightFunc (String c t) f = String c t'.
Proof.
  unfold TrimRightFunc, lastIndexFunc.
  pose proof (lastIndexFunc_from_found (len (String c t)) (len (String c t)) t
                ltac:(simpl; lia) ltac:(lia)) as Hfound.
  set (i := lastIndexFunc_from _ _ _ _) in *.
  match goal with
  | |- context [slice_to (Z.to_nat ?x) _] => set (j := x)
  end.
  assert (Hj : 1 <= j).
  { unfold j.
    destruct (Z.eq_dec i 0) as [->|Hi].
    - simpl. destruct (utf8.RuneSelf <=? byteZ c) eqn:E; [|lia].
      apply Z.leb_le in E. lia.
    - destruct (_ && _); lia. }
  destruct (Z.to_nat j) as [|n] eqn:Hn; [lia|].
  simpl. eauto.
Qed.

End TrimHead.

Lemma trim_right_ascii_head (c : ascii) (stop : nat) (t : string) :
  byteZ c < utf8.RuneSelf ->
  asciiSpace (byteZ c) = false ->
  unicode.IsSpace (byteZ c) = false ->
  (1 <= stop <= len (String c t))%nat ->
  exists t', trim_right_ascii stop (String c t) = String c t'.
Proof.
  intros Hascii Hkeep Hkeep'.
  induction stop as [|stop IH]; intros Hstop; [lia|].
  simpl trim_right_ascii.
  destruct (byte_at_Some stop (String c t) ltac:(lia)) as [c' Hc'].
  rewrite Hc'.
  destruct (utf8.RuneSelf <=? byteZ c') eqn:E.
  { change (slice_to (S stop) (String c t))
      with (String c (slice_to stop t)).
    now apply TrimRightFunc_head. }
  destruct (asciiSpace (byteZ c')) eqn:Esp.
  - apply IH. destruct stop; [|lia].
    simpl in Hc'. congruence.
  - simpl. eauto.
Qed.

(** The trimmed text of a line that starts with the item prefix starts with
    the hyphen. *)
Lemma TrimSpace_item_prefix (rest : string) :
  exists t, TrimSpace ("  - " +:+ rest) = String "-" t.
Proof.
  change (TrimSpace ("  - " +:+ rest))
    with (trim_right_ascii (len (String "-" (String " " rest)))
            (String "-" (String " " rest))).
  apply trim_right_ascii_head; try reflexivity.
  simpl. lia.
Qed.

Lemma item_line_not_special (rest : string) :
  let trimmedLine := TrimSpace ("  - " +:+ rest) in
  isMarker trimmedLine = false
  /\ streq trimmedLine "" = false /\ streq trimmedLine "Listing..." = false.
Proof.
  destruct (TrimSpace_item_prefix rest) as [t Ht]. cbv zeta. rewrite Ht.
  unfold isMarker. repeat split;
    repeat match goal with
           | |- context [streq ?a ?b] =>
               let H := fresh in
               assert (H : streq a b = false) by (apply streq_false; discriminate);
               rewrite H; clear H
           end; reflexivity.
Qed.

(** ** The backtracking search *)

(** A failed greedy repetition: the rest of the pattern fails after every
    run of the class. *)
Lemma star_None (p : ascii -> bool) (s : string) (pos : nat)
    (k : nat -> string -> option captures) :
  star p pos s k = None ->
  forall a b, s = a +:+ b -> all p a = true -> k (pos + len a)%nat b = None.
Proof.
  revert pos. induction s as [|c t IH]; intros pos H a b Hs Hall; simpl in H.
  - destruct a; str_simpl; [|discriminate]. subst b.
    simpl. now rewrite Nat.add_0_r.
  - destruct a as [|c' a]; str_simpl.
    + subst b. simpl. rewrite Nat.add_0_r.
      destruct (p c); [|exact H].
      destruct (star p (S pos) t k); [discriminate|exact H].
    + injection Hs as <- Hs. simpl in Hall.
      apply andb_true_iff in Hall as [Hc Hall]. rewrite Hc in H.
      destruct (star p (S pos) t k) eqn:E; [discriminate|].
      simpl. replace (pos + S (len a))%nat with (S pos + len a)%nat by lia.
      now apply (IH (S pos) E a b).
Qed.

(** A successful greedy repetition has found the longest run of the class
    after which the rest of the pattern matches. *)
Lemma star_Some (p : ascii -> bool) (s : string) (pos : nat)
    (k : nat -> string -> option captures) (r : captures) :
  star p pos s k = Some r ->
  exists a b, s = a +:+ b /\ all p a = true
    /\ k (pos + len a)%nat b = Some r
    /\ forall a' b', s = a' +:+ b' -> all p a' = true ->
         (len a < len a')%nat -> k (pos + len a')%nat b' = None.
Proof.
  revert pos. induction s as [|c t IH]; intros pos H; simpl in H.
  - exists "", "". simpl. rewrite Nat.add_0_r. repeat split; [exact H|].
    intros a' b' Ha' _ Hlen. destruct a'; str_simpl; simpl in *;
      [lia|discriminate].
  - destruct (p c) eqn:Hpc; [destruct (star p (S pos) t k) as [r'|] eqn:E|].
    + injection H as <-.
      destruct (IH _ E) as (a & b & -> & Hall & Hk & Hmax).
      exists (String c a), b. simpl. rewrite Hpc, Hall.
      replace (pos + S (len a))%nat with (S pos + len a)%nat by lia.
      repeat split; [exact Hk|].
      intros a' b' Ha' Hall' Hlen.
      destruct a' as [|c' a']; str_simpl; simpl in *; [lia|].
      injection Ha' as <- Ha'. apply andb_true_iff in Hall' as [_ Hall'].
      replace (pos + S (len a'))%nat with (S pos + len a')%nat by lia.
      apply Hmax; [exact Ha'|exact Hall'|lia].
    + exists "", (String c t). simpl. rewrite Nat.add_0_r.
      repeat split; [exact H|].
      intros a' b' Ha' Hall' Hlen.
      destruct a' as [|c' a']; str_simpl; simpl in *; [lia|].
      injection Ha' as <- Ha'. apply andb_true_iff in Hall' as [_ Hall'].
      replace (pos + S (len a'))%nat with (S pos + len a')%nat by lia.
      now apply (star_None p t (S pos) k E a' b').
    + exists "", (String c t). simpl. rewrite Nat.add_0_r.
      repeat split; [exact H|].
      intros a' b' Ha' Hall' Hlen.
      destruct a' as [|c' a']; str_simpl; simpl in *; [lia|].
      injection Ha' as <- _. apply andb_true_iff in Hall' as [Hc' _].
      congruence.
Qed.

(** [x+] through [x*]. *)
Lemma exec_Plus (p : ascii -> bool) (pos : nat) (s : string)
    (caps : captures) (k : cont) :
  exec (Plus p) pos s caps k
  = match s with
    | String c t =>
        if p c then star p (S pos) t (fun pos' s' => k pos' s' caps)
        else None
    | EmptyString => None
    end.
Proof. reflexivity. Qed.

Lemma exec_Plus_Some (p : ascii -> bool) (pos : nat) (s : string)
    (caps : captures) (k : cont) (r : captures) :
  exec (Plus p) pos s caps k = Some r ->
  exists a b, s = a +:+ b /\ a <> "" /\ all p a = true
    /\ k (pos + len a)%nat b caps = Some r
    /\ forall a' b', s = a' +:+ b' -> all p a' = true ->
         (len a < len a')%nat -> k (pos + len a')%nat b' caps = None.
Proof.
  rewrite exec_Plus. destruct s as [|c t]; [discriminate|].
  destruct (p c) eqn:Hpc; [|discriminate]. intros H.
  destruct (star_Some _ _ _ _ _ H) as (a & b & -> & Hall & Hk & Hmax).
  exists (String c a), b. simpl. rewrite Hpc, Hall.
  replace (pos + S (len a))%nat with (S pos + len a)%nat by lia.
  repeat split; [discriminate|exact Hk|].
  intros a' b' Ha' Hall' Hlen.
  destruct a' as [|c' a']; str_simpl; simpl in *; [lia|].
  injection Ha' as <- Ha'. apply andb_true_iff in Hall' as [_ Hall'].
  replace (pos + S (len a'))%nat with (S pos + len a')%nat by lia.
  apply Hmax; [exact Ha'|exact Hall'|lia].
Qed.

Lemma exec_Plus_None (p : ascii -> bool) (pos : nat) (s : string)
    (caps : captures) (k : cont) :
  exec (Plus p) pos s caps k = None ->
  forall a b, s = a +:+ b -> a <> "" -> all p a = true ->
    k (pos + len a)%nat b caps = None.
Proof.
  rewrite exec_Plus. intros H a b -> Hne Hall.
  destruct a as [|c a]; [congruence|]. str_simpl. simpl in Hall.
  apply andb_true_iff in Hall as [Hc Hall]. rewrite Hc in H.
  simpl. replace (pos + S (len a))%nat with (S pos + len a)%nat by lia.
  now apply (star_None p (a +:+ b) (S pos) _ H a b).
Qed.

(** A pattern anchored at the beginning of the text matches at offset
    zero or not at all. *)
Lemma search_anchored (re : Regexp) (s : string) :
  search (Concat BeginText re) O s = match_at (Concat BeginText re) O s.
Proof.
  assert (Hlater : forall t pos, search (Concat BeginText re) (S pos) t = None).
  { induction t as [|c t IH]; intros pos; simpl; [reflexivity|apply IH]. }
  destruct s as [|c t]; simpl.
  - now destruct (match_at _ _ _).
  - rewrite Hlater. now destruct (match_at _ _ _).
Qed.

(** A greedy repetition followed by the end of the text takes the whole
    text or fails. *)
Lemma star_then_end (p : ascii -> bool) (pos : nat) (t : string)
    (k : nat -> string -> option captures) :
  star p pos t
    (fun pos' s' =>
       match s' with
       | EmptyString => k pos' s'
       | String _ _ => None
       end)
  = if all p t then k (pos + len t)%nat "" else None.
Proof.
  revert pos. induction t as [|c t IH]; intros pos; simpl.
  - now rewrite Nat.add_0_r.
  - destruct (p c); simpl; [|reflexivity].
    rewrite IH. replace (S pos + len t)%nat with (pos + S (len t))%nat by lia.
    now destruct (all p t); [destruct (k _ _)|].
Qed.

(** ** The name-version pattern *)

Lemma search_nameVersionRpm (namePart : string) :
  search nameVersionRpm O namePart
  = exec (Plus any_char_not_nl) O namePart ∅ (nameVersion_rest namePart).
Proof. unfold nameVersionRpm. now rewrite search_anchored. Qed.

Lemma nameVersion_rest_eval (namePart : string) (pos : nat) (s : string)
    (caps : captures) :
  nameVersion_rest namePart pos s caps
  = match s with
    | String h (String c t) =>
        if bool_decide ("-"%char = h) && digit c && all any_char_not_nl t
        then Some (<[O := slice_to (pos + 1 + 1 + len t) namePart]>
                     (<[2%nat := String c t]>
                        (<[1%nat := slice_to pos namePart]> caps)))
        else None
    | _ => None
    end.
Proof.
  unfold nameVersion_rest. rewrite Nat.sub_0_r.
  destruct s as [|h [|c t]]; cbn -[slice_to]; [reflexivity| |].
  { destruct (bool_decide ("-"%char = h)); reflexivity. }
  destruct (bool_decide ("-"%char = h)); cbn -[slice_to]; [|reflexivity].
  destruct (digit c); cbn -[slice_to]; [|reflexivity].
  rewrite star_then_end.
  destruct (all any_char_not_nl t); [|reflexivity].
  rewrite Nat.sub_0_r.
  replace (S (pos + 1) + len t - (pos + 1))%nat with (S (len t)) by lia.
  replace (S (pos + 1) + len t)%nat with (pos + 1 + 1 + len t)%nat by lia.
  change (S (len t)) with (len (String c t)).
  now rewrite slice_to_len.
Qed.

Lemma digitSplit_rest (namePart name upstream : string) (caps : captures) :
  all any_char_not_nl namePart = true ->
  digitSplit namePart name upstream ->
  nameVersion_rest namePart (len name) ("-" +:+ upstream) caps
  = Some (<[O := namePart]>
            (<[2%nat := upstream]> (<[1%nat := name]> caps))).
Proof.
  intros Hall (-> & Hne & c & t & -> & Hd).
  rewrite nameVersion_rest_eval. str_simpl.
  assert (Ht : all any_char_not_nl t = true).
  { rewrite all_app in Hall. apply andb_true_iff in Hall as [_ Hall].
    cbn [all] in Hall.
    apply andb_true_iff in Hall as [_ Hall].
    now apply andb_true_iff in Hall as [_ Hall]. }
  rewrite bool_decide_eq_true_2 by reflexivity. rewrite Hd, Ht. simpl.
  rewrite slice_to_app.
  replace (len name + 1 + 1 + len t)%nat
    with (len (name +:+ String "-" (String c t))).
  - now rewrite slice_to_len.
  - rewrite len_app. simpl. lia.
Qed.

(** On a name part without a line feed, the name-version pattern finds the
    split at the last hyphen that has text before it and a digit after it,
    and fails exactly when there is no such hyphen. *)
Lemma nameVersionRpm_split (namePart : string) :
  all any_char_not_nl namePart = true ->
  (exists name upstream,
      FindStringSubmatch nameVersionRpm namePart = [namePart; name; upstream]
      /\ lastDigitSplit namePart name upstream)
  \/ (FindStringSubmatch nameVersionRpm namePart = []
      /\ forall name upstream, ~ digitSplit namePart name upstream).
Proof.
  intros Hall. unfold FindStringSubmatch. rewrite search_nameVersionRpm.
  destruct (exec (Plus any_char_not_nl) O namePart ∅
              (nameVersion_rest namePart)) as [r|] eqn:E.
  - left.
    destruct (exec_Plus_Some _ _ _ _ _ _ E)
      as (name & b & Hs & Hne & Hn & Hk & Hmax).
    simpl in Hk. rewrite nameVersion_rest_eval in Hk.
    destruct b as [|h [|c t]]; try discriminate Hk.
    destruct (bool_decide ("-"%char = h)) eqn:Hh; [|discriminate Hk].
    apply bool_decide_eq_true in Hh. subst h.
    destruct (digit c) eqn:Hd; [|discriminate Hk].
    destruct (all any_char_not_nl t) eqn:Ht; [|discriminate Hk].
    simpl in Hk. injection Hk as <-.
    assert (Hsplit : digitSplit namePart name (String c t)).
    { split; [exact Hs|]. split; [exact Hne|]. eauto. }
    exists name, (String c t). split.
    + simpl. rewrite lookup_insert_eq.
      rewrite lookup_insert_ne, lookup_insert_ne, lookup_insert_eq by lia.
      rewrite lookup_insert_ne, lookup_insert_eq by lia. simpl.
      replace (len name + 1 + 1 + len t)%nat with (len namePart).
      * rewrite slice_to_len. subst namePart. now rewrite slice_to_app.
      * subst namePart. rewrite len_app. simpl. lia.
    + split; [exact Hsplit|].
      intros name' upstream' Hsplit'.
      destruct (Nat.le_gt_cases (len name') (len name)) as [Hle|Hgt];
        [exact Hle|exfalso].
      pose proof (digitSplit_rest _ _ _ ∅ Hall Hsplit') as Hrest.
      destruct Hsplit' as (Hs' & _ & _).
      assert (Hn' : all any_char_not_nl name' = true).
      { rewrite Hs', all_app in Hall. now apply andb_true_iff in Hall. }
      pose proof (Hmax name' _ Hs' Hn' Hgt) as Hnone.
      cbn [Nat.add] in Hnone. congruence.
  - right. split; [reflexivity|].
    intros name upstream Hsplit.
    pose proof (digitSplit_rest _ _ _ ∅ Hall Hsplit) as Hrest.
    destruct Hsplit as (Hs & Hne & _).
    assert (Hn : all any_char_not_nl name = true).
    { rewrite Hs, all_app in Hall. now apply andb_true_iff in Hall. }
    pose proof (exec_Plus_None _ _ _ _ _ E name _ Hs Hne Hn) as Hnone.
    cbn [Nat.add] in Hnone. congruence.
Qed.

(** ** The RPM pattern *)

Lemma exec_Concat (a b : Regexp) (pos : nat) (s : string)
    (caps : captures) (k : cont) :
  exec (Concat a b) pos s caps k
  = exec a pos s caps (fun pos' s' caps' => exec b pos' s' caps' k).
Proof. reflexivity. Qed.

Lemma exec_Capture (i : nat) (a : Regexp) (pos : nat) (s : string)
    (caps : captures) (k : cont) :
  exec (Capture i a) pos s caps k
  = exec a pos s caps
      (fun pos' s' caps' => k pos' s' (<[i := slice_to (pos' - pos) s]> caps')).
Proof. reflexivity. Qed.

Lemma exec_Literal_Some (l : string) (pos : nat) (s : string)
    (caps : captures) (k : cont) (r : captures) :
  exec (Literal l) pos s caps k = Some r ->
  exists s', s = l +:+ s' /\ k (pos + len l)%nat s' caps = Some r.
Proof.
  cbn [exec]. destruct (HasPrefix s l) eqn:H; [|discriminate].
  apply HasPrefix_true in H. intros Hk. eauto.
Qed.

Lemma exec_Alternate_Literals (l1 l2 : string) (pos : nat) (s : string)
    (caps : captures) (k : cont) (r : captures) :
  exec (Alternate (Literal l1) (Literal l2)) pos s caps k = Some r ->
  exists l s', (l = l1 \/ l = l2) /\ s = l +:+ s'
    /\ k (pos + len l)%nat s' caps = Some r.
Proof.
  cbn [exec]. destruct (HasPrefix s l1) eqn:H1.
  - destruct (k (pos + len l1)%nat (slice_from (len l1) s) caps) eqn:Hk.
    + intros [= <-]. apply HasPrefix_true in H1. eauto 6.
    + destruct (HasPrefix s l2) eqn:H2; [|discriminate].
      apply HasPrefix_true in H2. eauto 6.
  - destruct (HasPrefix s l2) eqn:H2; [|discriminate].
    apply HasPrefix_true in H2. eauto 6.
Qed.

Lemma search_rpmRegex (line : string) :
  search rpmRegex O line
  = exec (Plus any_char_not_nl) O line ∅ (rpm_rest line).
Proof. unfold rpmRegex. now rewrite search_anchored. Qed.

Lemma rpm_rest_Some (line : string) (pos : nat) (s : string)
    (caps r : captures) :
  rpm_rest line pos s caps = Some r ->
  exists X d a,
    s = "-" +:+ X +:+ "." +:+ d +:+ "." +:+ a
    /\ X <> "" /\ all (not_char "-") X = true
    /\ (d = "azl3" \/ d = "cm2") /\ (a = "x86_64" \/ a = "noarch")
    /\ r = <[O := slice_to (pos + len s) line]>
             (<[2%nat := X +:+ "." +:+ d +:+ "." +:+ a]>
                (<[4%nat := a]>
                   (<[3%nat := d]>
                      (<[1%nat := slice_to pos line]> caps)))).
Proof.
  unfold rpm_rest. rewrite Nat.sub_0_r. intros H.
  rewrite exec_Concat in H.
  apply exec_Literal_Some in H as (V & -> & H). cbv beta in H.
  rewrite exec_Concat, exec_Capture, exec_Concat in H.
  apply exec_Plus_Some in H as (X & b2 & -> & HX & Hall & H & _).
  cbv beta in H. rewrite exec_Concat in H.
  apply exec_Literal_Some in H as (b3 & -> & H). cbv beta in H.
  rewrite exec_Concat, exec_Capture in H.
  apply exec_Alternate_Literals in H as (d & b4 & Hd & -> & H). cbv beta in H.
  rewrite exec_Concat in H.
  apply exec_Literal_Some in H as (b5 & -> & H). cbv beta in H.
  rewrite exec_Capture in H.
  apply exec_Alternate_Literals in H as (a & b6 & Ha & -> & H). cbv beta in H.
  cbn [exec] in H. destruct b6; [|discriminate H]. injection H as <-.
  rewrite app_empty_r.
  exists X, d, a. repeat split; try assumption.
  replace (pos + 1 + len X + 1 + len d + 1 + len a - (pos + 1))%nat
    with (len (X +:+ "." +:+ d +:+ "." +:+ a))
    by (rewrite !len_app; simpl; lia).
  replace (pos + 1 + len X + 1 + len d + 1 + len a
           - (pos + 1 + len X + 1 + len d + 1))%nat
    with (len a) by lia.
  replace (pos + 1 + len X + 1 + len d - (pos + 1 + len X + 1))%nat
    with (len d) by lia.
  replace (pos + 1 + len X + 1 + len d + 1 + len a - 0)%nat
    with (pos + len ("-" +:+ X +:+ "." +:+ d +:+ "." +:+ a))%nat
    by (rewrite !len_app; simpl; lia).
  now rewrite !slice_to_len, slice_to_app.
Qed.

(** A line that matches the RPM pattern is a name part without a line
    feed, a hyphen, and a version part made of a hyphen-free text, the
    dist tag and the architecture; the groups hold these parts. *)
Lemma rpmRegex_match (line : string) :
  MatchString rpmRegex line = true ->
  exists namePart X d a,
    line = namePart +:+ "-" +:+ X +:+ "." +:+ d +:+ "." +:+ a
    /\ namePart <> "" /\ all any_char_not_nl namePart = true
    /\ X <> "" /\ all (not_char "-") X = true
    /\ (d = "azl3" \/ d = "cm2") /\ (a = "x86_64" \/ a = "noarch")
    /\ FindStringSubmatch rpmRegex line
       = [line; namePart; X +:+ "." +:+ d +:+ "." +:+ a; d; a].
Proof.
  unfold MatchString, FindStringSubmatch. rewrite search_rpmRegex.
  intros H. apply bool_decide_eq_true in H.
  destruct H as [r Hr]. rewrite Hr.
  apply exec_Plus_Some in Hr as (namePart & b & -> & HN & Hall & Hk & _).
  cbn [Nat.add] in Hk.
  apply rpm_rest_Some in Hk as (X & d & a & -> & HX & HallX & Hd & Ha & ->).
  exists namePart, X, d, a. repeat split; try assumption.
  simpl. rewrite lookup_insert_eq.
  do 4 (rewrite lookup_insert_ne by lia). rewrite lookup_insert_eq.
  do 1 (rewrite lookup_insert_ne by lia). rewrite lookup_insert_eq.
  do 3 (rewrite lookup_insert_ne by lia). rewrite lookup_insert_eq.
  do 2 (rewrite lookup_insert_ne by lia). rewrite lookup_insert_eq.
  simpl. rewrite app_nil.
  replace (len namePart + S (len (X +:+ "." +:+ d +:+ "." +:+ a)))%nat
    with (len (namePart +:+ "-" +:+ X +:+ "." +:+ d +:+ "." +:+ a))
    by (rewrite !len_app; simpl; lia).
  now rewrite slice_to_len, slice_to_app.
Qed.

Lemma LastIndex_from_none (a : string) (i : Z) :
  all (not_char ".") a = true -> LastIndex_from i a "." = -1.
Proof.
  revert i. induction a as [|c t IH]; intros i Hall; [reflexivity|].
  simpl in Hall. apply andb_true_iff in Hall as [Hc Hall].
  cbn [LastIndex_from]. rewrite (IH (i + 1) Hall). cbn [Z.leb Z.compare].
  unfold not_char in Hc. apply negb_true_iff, bool_decide_eq_false in Hc.
  cbn [HasPrefix]. rewrite bool_decide_eq_false_2 by congruence. reflexivity.
Qed.

Lemma LastIndex_from_app (R a : string) (i : Z) :
  0 <= i -> all (not_char ".") a = true ->
  LastIndex_from i (R +:+ "." +:+ a) "." = i + Z.of_nat (len R).
Proof.
  intros Hi Hall. revert i Hi.
  induction R as [|c R IH]; intros i Hi; str_simpl; cbn [LastIndex_from].
  - rewrite (LastIndex_from_none a (i + 1) Hall). simpl. lia.
  - rewrite (IH (i + 1)) by lia.
    destruct (0 <=? i + 1 + Z.of_nat (len R)) eqn:E;
      [simpl; lia|apply Z.leb_gt in E; lia].
Qed.

Lemma MatchString_false (re : Regexp) (s : string) :
  MatchString re s = false -> FindStringSubmatch re s = [].
Proof.
  unfold MatchString, FindStringSubmatch. intros H.
  apply bool_decide_eq_false in H.
  destruct (search re O s); [|reflexivity]. exfalso. apply H. eauto.
Qed.

Lemma MatchString_true_length (re : Regexp) (s : string) :
  MatchString re s = true ->
  length (FindStringSubmatch re s) = S (NumSubexp re).
Proof.
  unfold MatchString, FindStringSubmatch. intros H.
  apply bool_decide_eq_true in H. destruct H as [r ->].
  now rewrite length_fmap, length_seq.
Qed.

(** ** Distro detection *)

Lemma detectDistroFromID_recognized (id : string) :
  recognizedID id = true -> detectDistroFromID id <> DistroUnknown.
Proof.
  unfold recognizedID, detectDistroFromID.
  destruct (streq id "ubuntu"), (streq id "debian"), (streq id "azurelinux"),
    (streq id "mariner"); simpl; intros H; try discriminate H; discriminate.
Qed.

Lemma detectDistroFromID_unrecognized (id : string) :
  recognizedID id = false -> detectDistroFromID id = DistroUnknown.
Proof.
  unfold recognizedID, detectDistroFromID.
  destruct (streq id "ubuntu"), (streq id "debian"), (streq id "azurelinux"),
    (streq id "mariner"); simpl; intros H; try discriminate H; reflexivity.
Qed.

(** C1, counterexample.  The os-release map is not empty and its [ID],
    [fedora], is not a recognized one, yet the recorded distro is not
    Unknown: the package counters (no APT line, one RPM line) decided it. *)
Lemma unrecognized_id_consults_counters :
  let st := scanLines initState fedora_input in
  size (osReleaseData st) = 1%nat
  /\ field (osReleaseData st) "ID" = "fedora"
  /\ recognizedID "fedora" = false
  /\ (ubuntuPackageCount st, rpmPackageCount st) = (0, 1)
  /\ (Distro <$> (fst (Parse (linesReader fedora_input)) ≫= ResultOSRelease))
     = Some DistroAzureLinux.
Proof. vm_compute. repeat split; reflexivity. Qed.

(** C1, as amended.  When the os-release map is non-empty and its [ID] is
    one of the four recognized values, the distro decided by [Parse] is the
    literal mapping of the [ID], whatever the counters: [ubuntu] and
    [debian] give Ubuntu/Debian, [azurelinux] gives AzureLinux, [mariner]
    gives Mariner.  In every other case (an empty map, or a non-empty map
    whose [ID] is absent or unrecognized) the counter comparison decides:
    strictly more RPM matches give AzureLinux, strictly more APT matches
    give Ubuntu/Debian, equal counts give Unknown.  The os-release record of
    the result carries that distro, and exists exactly when the map is
    non-empty. *)
Theorem detectDistro_policy :
  (forall (data : gmap string string) (aptMatches rpmMatches : Z),
     (0 < size data)%nat ->
     (field data "ID" = "ubuntu" \/ field data "ID" = "debian" ->
      detectDistro data aptMatches rpmMatches = DistroUbuntu)
     /\ (field data "ID" = "azurelinux" ->
         detectDistro data aptMatches rpmMatches = DistroAzureLinux)
     /\ (field data "ID" = "mariner" ->
         detectDistro data aptMatches rpmMatches = DistroMariner))
  /\ (forall (data : gmap string string) (aptMatches rpmMatches : Z),
        size data = 0%nat
        \/ (field data "ID" <> "ubuntu" /\ field data "ID" <> "debian"
            /\ field data "ID" <> "azurelinux"
            /\ field data "ID" <> "mariner") ->
        (rpmMatches > aptMatches ->
         detectDistro data aptMatches rpmMatches = DistroAzureLinux)
        /\ (aptMatches > rpmMatches ->
            detectDistro data aptMatches rpmMatches = DistroUbuntu)
        /\ (aptMatches = rpmMatches ->
            detectDistro data aptMatches rpmMatches = DistroUnknown))
  /\ (forall lines : list string,
        let st := scanLines initState lines in
        Distro <$> (fst (Parse (linesReader lines)) ≫= ResultOSRelease)
        = if (0 <? size (osReleaseData st))%nat
          then Some (detectDistro (osReleaseData st)
                       (ubuntuPackageCount st) (rpmPackageCount st))
          else None).
Proof.
  split; [|split].
  - intros data aptMatches rpmMatches Hsize.
    apply Nat.ltb_lt in Hsize. unfold detectDistro. rewrite Hsize.
    repeat split.
    + intros [-> | ->]; reflexivity.
    + intros ->. reflexivity.
    + intros ->. reflexivity.
  - intros data aptMatches rpmMatches Hcase.
    assert (Hvote : detectDistro data aptMatches rpmMatches
                    = counterVote aptMatches rpmMatches).
    { unfold detectDistro, counterVote.
      destruct Hcase as [Hempty | (Hu & Hd & Ha & Hm)].
      - rewrite Hempty. reflexivity.
      - destruct (0 <? size data)%nat; [|reflexivity].
        rewrite detectDistroFromID_unrecognized; [reflexivity|].
        unfold recognizedID. apply streq_false in Hu, Hd, Ha, Hm.
        now rewrite Hu, Hd, Ha, Hm. }
    rewrite Hvote. unfold counterVote. repeat split.
    + intros Hgt. destruct (rpmMatches >? aptMatches) eqn:E; [reflexivity|].
      rewrite Z.gtb_ltb in E. apply Z.ltb_ge in E. lia.
    + intros Hgt. destruct (rpmMatches >? aptMatches) eqn:E.
      { rewrite Z.gtb_ltb in E. apply Z.ltb_lt in E. lia. }
      destruct (aptMatches >? rpmMatches) eqn:E'; [reflexivity|].
      rewrite Z.gtb_ltb in E'. apply Z.ltb_ge in E'. lia.
    + intros ->. rewrite Z.gtb_ltb, Z.ltb_irrefl. reflexivity.
  - intros lines st. unfold Parse, linesReader. simpl. fold st.
    unfold finish.
    destruct (0 <? size (osReleaseData st))%nat; simpl;
      match goal with |- context [if ?c then _ else _] => destruct c end;
      reflexivity.
Qed.

Lemma detectDistro_policy_witness :
  detectDistro {[ "ID" := "debian" ]} 0 5 = DistroUbuntu
  /\ detectDistro {[ "ID" := "mariner" ]} 4 0 = DistroMariner
  /\ detectDistro {[ "ID" := "fedora" ]} 1 2 = DistroAzureLinux
  /\ detectDistro ∅ 3 3 = DistroUnknown.
Proof.
  destruct detectDistro_policy as (Hid & Hvote & _).
  split; [|split; [|split]].
  - destruct (Hid {[ "ID" := "debian" ]} 0 5) as (Hu & _ & _);
      [vm_compute; lia|].
    apply Hu. right. reflexivity.
  - destruct (Hid {[ "ID" := "mariner" ]} 4 0) as (_ & _ & Hm);
      [vm_compute; lia|].
    apply Hm. reflexivity.
  - destruct (Hvote {[ "ID" := "fedora" ]} 1 2) as (Hrpm & _ & _).
    + right. vm_compute. repeat split; discriminate.
    + apply Hrpm. lia.
  - destruct (Hvote ∅ 3 3) as (_ & _ & Heq).
    + left. reflexivity.
    + apply Heq. reflexivity.
Defined.

(** ** The section tracker *)

(** What each marker does to the three flags. *)
Lemma scanLine_marker (st : ScanState) (line : string) :
  (TrimSpace line = "=== Installed Packages Begin" ->
   scanLine st line = set_flags st true false false)
  /\ (TrimSpace line = "=== Installed Packages End" ->
      scanLine st line
      = set_flags st false (inOSReleaseSection st) (inContainerImagesSection st))
  /\ (TrimSpace line = "=== os-release Begin" ->
      scanLine st line = set_flags st false true false)
  /\ (TrimSpace line = "=== os-release End" ->
      scanLine st line
      = set_flags st (inPackageSection st) false (inContainerImagesSection st))
  /\ (TrimSpace line = "containerd images pre-pulled:" ->
      scanLine st line = set_flags st false false true).
Proof.
  unfold scanLine. repeat split; intros ->; reflexivity.
Qed.

(** C2, counterexample.  After [=== os-release Begin] the tracker is in
    InOSRelease; the line [=== Installed Packages End] leaves it there. *)
Lemma foreign_end_marker_keeps_section :
  tracker (scanLines initState ["=== os-release Begin"]) = InOSRelease
  /\ TrimSpace "=== Installed Packages End" = "=== Installed Packages End"
  /\ tracker (scanLines initState
                ["=== os-release Begin"; "=== Installed Packages End"])
     = InOSRelease.
Proof. vm_compute. repeat split; reflexivity. Qed.

(** C2, as amended.  An End marker clears the flag of its own section and
    no other.  From a tracker state with at most one flag set, the line
    [=== Installed Packages End] moves InPackages to None and leaves the
    other three states as they are; [=== os-release End] moves InOSRelease
    to None and leaves the other three as they are.  Nothing but the flag
    changes. *)
Theorem end_marker_clears_own_section (st : ScanState) (line : string) :
  exclusive st ->
  (TrimSpace line = "=== Installed Packages End" ->
   scanLine st line
   = set_flags st false (inOSReleaseSection st) (inContainerImagesSection st)
   /\ tracker (scanLine st line)
      = match tracker st with InPackages => SecNone | other => other end)
  /\ (TrimSpace line = "=== os-release End" ->
      scanLine st line
      = set_flags st (inPackageSection st) false (inContainerImagesSection st)
      /\ tracker (scanLine st line)
         = match tracker st with InOSRelease => SecNone | other => other end).
Proof.
  intros Hex.
  destruct (scanLine_marker st line) as (_ & Hpe & _ & Hoe & _).
  split; intros Ht.
  - rewrite (Hpe Ht). split; [reflexivity|].
    unfold tracker, exclusive in *. simpl.
    destruct (inPackageSection st), (inOSReleaseSection st),
      (inContainerImagesSection st); try reflexivity;
      destruct Hex as [[? ?]|[[? ?]|[? ?]]]; discriminate.
  - rewrite (Hoe Ht). split; [reflexivity|].
    unfold tracker, exclusive in *. simpl.
    destruct (inPackageSection st), (inOSReleaseSection st),
      (inContainerImagesSection st); try reflexivity;
      destruct Hex as [[? ?]|[[? ?]|[? ?]]]; discriminate.
Qed.

Lemma end_marker_clears_own_section_witness :
  exclusive (set_flags initState true false false)
  /\ tracker (scanLine (set_flags initState true false false)
                " === Installed Packages End")
     = SecNone.
Proof.
  assert (Hex : exclusive (set_flags initState true false false)).
  { right; right. split; reflexivity. }
  split; [exact Hex|].
  destruct (end_marker_clears_own_section
              (set_flags initState true false false)
              " === Installed Packages End" Hex) as [Hp _].
  destruct (Hp eq_refl) as [_ Ht]. exact Ht.
Defined.

Lemma exclusive_scanLine (st : ScanState) (line : string) :
  exclusive st -> exclusive (scanLine st line).
Proof.
  intros Hex. unfold scanLine.
  repeat match goal with
         | |- context [if streq ?a ?b then _ else _] => destruct (streq a b)
         end;
    try (unfold exclusive; simpl; tauto);
    try (unfold exclusive in *; simpl; tauto).
  all: try match goal with
           | |- context [if ?c then _ else _] => destruct c
           end; try exact Hex.
  all: unfold classify;
    repeat match goal with
           | |- context [if ?c then _ else _] => destruct c eqn:?
           | |- context [match ?c with Some _ => _ | None => _ end] =>
               destruct c eqn:?
           end;
    try exact Hex; unfold exclusive in *; simpl in *; try tauto.
  all: left; split; assumption.
Qed.

(** C8.  Whatever lines have been read so far, at most one of the three
    section flags is set: the invariant holds initially and each line
    preserves it, whatever markers the input holds and in whatever order. *)
Theorem sections_mutually_exclusive (lines : list string) :
  exclusive (scanLines initState lines).
Proof.
  unfold scanLines.
  assert (H0 : exclusive initState) by (left; split; reflexivity).
  revert H0. generalize initState as st.
  induction lines as [|line lines IH]; intros st Hst; simpl.
  - exact Hst.
  - apply IH. now apply exclusive_scanLine.
Qed.

(** ** The end of [Parse] *)

(** C3.  When the stream is read without error, [Parse] returns a result,
    holding the packages and the images accumulated at the end of the
    stream; it returns it with [ErrNoPackageSection] if and only if the
    package list is empty, the image list is empty and there is no
    os-release record, and with no error otherwise. *)
Theorem Parse_no_content_iff (rd : Reader) :
  scanErr rd = None ->
  exists result : ParseResult,
    fst (Parse (Some rd)) = Some result
    /\ ResultPackages result = Packages (scanLines initState (scanned rd))
    /\ ResultContainerImages result
       = ContainerImages (scanLines initState (scanned rd))
    /\ (snd (Parse (Some rd)) = Some ErrNoPackageSection <->
        ResultPackages result = [] /\ ResultContainerImages result = []
        /\ ResultOSRelease result = None)
    /\ (snd (Parse (Some rd)) = None <->
        ~ (ResultPackages result = [] /\ ResultContainerImages result = []
           /\ ResultOSRelease result = None)).
Proof.
  intros Herr. unfold Parse. rewrite Herr.
  set (st := scanLines initState (scanned rd)).
  unfold finish. cbn [ResultPackages ResultContainerImages ResultOSRelease].
  destruct (Packages st) as [|p ps], (ContainerImages st) as [|i imgs],
    (0 <? size (osReleaseData st))%nat; simpl;
    (eexists; split; [reflexivity|]); simpl;
    (split; [reflexivity|]); (split; [reflexivity|]);
    split; split; intros H;
    try discriminate H; try reflexivity;
    try (destruct H as (Hp & Hi & Ho); discriminate);
    try (intros (Hp & Hi & Ho); discriminate).
  - repeat split.
  - exfalso. apply H. repeat split.
Qed.

Lemma Parse_no_content_iff_witness :
  exists result : ParseResult,
    fst (Parse (linesReader ["Starting build"; "Disk usage:"])) = Some result
    /\ snd (Parse (linesReader ["Starting build"; "Disk usage:"]))
       = Some ErrNoPackageSection.
Proof.
  destruct (Parse_no_content_iff
              {| scanned := ["Starting build"; "Disk usage:"];
                 scanErr := None |} eq_refl)
    as (result & Hres & Hp & Hi & Hiff & _).
  exists result. split; [exact Hres|].
  apply Hiff. rewrite Hp, Hi.
  unfold Parse in Hres. simpl scanErr in Hres. cbv iota in Hres.
  assert (Hr : result
               = {| ResultPackages := []; ResultContainerImages := [];
                    ResultOSRelease := None |}).
  { vm_compute in Hres. now injection Hres as <-. }
  rewrite Hr. repeat split; vm_compute; reflexivity.
Defined.

(** ** The fix-version evaluator *)

Section FixVersionProperties.

Context {deb : DebVersionLib} {rpm : RpmVersionLib}.

Lemma isPackageFixed_empty_fix (pkgVersion : string) (distro : OSDistro) :
  isPackageFixed pkgVersion "" distro = false.
Proof. reflexivity. Qed.

(** C4.  With a non-empty fixed version: for Ubuntu/Debian, when both
    strings parse as Debian versions, the verdict is "fixed" exactly when
    the installed version is greater than or equal to the fixed one under
    the Debian ordering; for AzureLinux and Mariner, exactly when it is so
    under the RPM ordering. *)
Theorem isPackageFixed_ordering
    (pkgVersion fixedVersion : string) (distro : OSDistro) :
  fixedVersion <> "" ->
  (distro = DistroUbuntu ->
   forall pkgVer fixedVer : deb_version,
     deb_NewVersion pkgVersion = Some pkgVer ->
     deb_NewVersion fixedVersion = Some fixedVer ->
     (isPackageFixed pkgVersion fixedVersion distro = true
      <-> deb_ge pkgVer fixedVer))
  /\ (distro = DistroAzureLinux \/ distro = DistroMariner ->
      (isPackageFixed pkgVersion fixedVersion distro = true
       <-> rpm_ge (rpm_NewVersion pkgVersion) (rpm_NewVersion fixedVersion))).
Proof.
  intros Hne. apply streq_false in Hne. unfold isPackageFixed. rewrite Hne.
  split.
  - intros -> pkgVer fixedVer -> ->. simpl. unfold deb_ge.
    rewrite Z.geb_leb, Z.leb_le. lia.
  - intros [-> | ->]; simpl; unfold rpm_ge; rewrite Z.geb_leb, Z.leb_le; lia.
Qed.

(** C5.  The verdict is "not fixed" whenever the fixed version is empty,
    or the distro is none of Ubuntu/Debian, AzureLinux and Mariner (Unknown
    or any other value of the integer type), or the distro is Ubuntu/Debian
    and one of the two strings does not parse as a Debian version. *)
Theorem isPackageFixed_not_fixed
    (pkgVersion fixedVersion : string) (distro : OSDistro) :
  fixedVersion = ""
  \/ (distro <> DistroUbuntu /\ distro <> DistroAzureLinux
      /\ distro <> DistroMariner)
  \/ (distro = DistroUbuntu
      /\ (deb_NewVersion pkgVersion = None
          \/ deb_NewVersion fixedVersion = None)) ->
  isPackageFixed pkgVersion fixedVersion distro = false.
Proof.
  intros [-> | [(Hu & Ha & Hm) | (-> & Hparse)]].
  - apply isPackageFixed_empty_fix.
  - unfold isPackageFixed.
    apply Z.eqb_neq in Hu, Ha, Hm. rewrite Hu, Ha, Hm.
    destruct (streq fixedVersion ""); reflexivity.
  - unfold isPackageFixed. destruct (streq fixedVersion ""); [reflexivity|].
    simpl. destruct Hparse as [-> | Hf]; [reflexivity|].
    rewrite Hf. destruct (deb_NewVersion pkgVersion); reflexivity.
Qed.

End FixVersionProperties.

Lemma isPackageFixed_ordering_witness :
  (@isPackageFixed NumericVersions.deb NumericVersions.rpm
     "12" "7" DistroUbuntu = true
   <-> @deb_ge NumericVersions.deb 12%N 7%N)
  /\ (@isPackageFixed NumericVersions.deb NumericVersions.rpm
        "3" "7" DistroMariner = true
      <-> @rpm_ge NumericVersions.rpm 3%N 7%N).
Proof.
  split.
  - assert (Hne : "7" <> "") by discriminate.
    destruct (@isPackageFixed_ordering NumericVersions.deb NumericVersions.rpm
                "12" "7" DistroUbuntu Hne) as [Hdeb _].
    exact (Hdeb eq_refl 12%N 7%N eq_refl eq_refl).
  - assert (Hne : "7" <> "") by discriminate.
    destruct (@isPackageFixed_ordering NumericVersions.deb NumericVersions.rpm
                "3" "7" DistroMariner Hne) as [_ Hrpm].
    exact (Hrpm (or_intror eq_refl)).
Defined.

Lemma isPackageFixed_not_fixed_witness :
  @isPackageFixed NumericVersions.deb NumericVersions.rpm
    "12" "7" 9 = false
  /\ @isPackageFixed NumericVersions.deb NumericVersions.rpm
       "1.2" "7" DistroUbuntu = false.
Proof.
  split.
  - apply (@isPackageFixed_not_fixed NumericVersions.deb NumericVersions.rpm).
    right; left. repeat split; discriminate.
  - apply (@isPackageFixed_not_fixed NumericVersions.deb NumericVersions.rpm).
    right; right. split; [reflexivity|]. left. reflexivity.
Defined.

(** ** RPM package lines *)

(** The release version: the version part without its architecture. *)
Lemma release_version (release a : string) :
  a = "x86_64" \/ a = "noarch" ->
  let versionPart := release +:+ "." +:+ a in
  let idx := LastIndex versionPart "." in
  (if negb (idx =? -1) then
     let arch := slice_from (Z.to_nat (idx + 1)) versionPart in
     if streq arch "x86_64" || streq arch "noarch"
     then slice_to (Z.to_nat idx) versionPart
     else versionPart
   else versionPart) = release.
Proof.
  intros Ha versionPart idx.
  assert (Hidx : idx = Z.of_nat (len release)).
  { unfold idx, LastIndex, versionPart. rewrite LastIndex_from_app; [lia|lia|].
    destruct Ha as [-> | ->]; reflexivity. }
  rewrite Hidx.
  destruct (Z.of_nat (len release) =? -1) eqn:E; [apply Z.eqb_eq in E; lia|].
  cbn [negb]. cbv zeta. rewrite Nat2Z.id.
  replace (Z.to_nat (Z.of_nat (len release) + 1))
    with (len (release +:+ ".")) by (rewrite len_app; simpl; lia).
  assert (Harch : slice_from (len (release +:+ ".")) versionPart = a).
  { unfold versionPart. rewrite <- (app_assoc_str release "." a).
    apply slice_from_app. }
  assert (Hrel : slice_to (len release) versionPart = release)
    by apply slice_to_app.
  rewrite Harch, Hrel.
  destruct Ha as [-> | ->]; reflexivity.
Qed.

(** C6, counterexample.  The first line matches the RPM grammar (its name
    part has no hyphen followed by a digit) and also the APT grammar, which
    is tried first: the package is the APT one.  The second line matches the
    RPM grammar only; the one hyphen of its name part that is followed by a
    digit is the first character, and the name part is not split there. *)
Lemma rpm_grammar_line_not_split_as_stated :
  (MatchString rpmRegex "a/b,now 1 x [y]-1.azl3.x86_64" = true
   /\ FindStringSubmatch rpmRegex "a/b,now 1 x [y]-1.azl3.x86_64"
      = ["a/b,now 1 x [y]-1.azl3.x86_64"; "a/b,now 1 x [y]";
         "1.azl3.x86_64"; "azl3"; "x86_64"]
   /\ parsePackageLine "a/b,now 1 x [y]-1.azl3.x86_64"
      = Some {| Name := "a"; Version := "1" |})
  /\ (FindStringSubmatch rpmRegex "-1-3.azl3.x86_64"
      = ["-1-3.azl3.x86_64"; "-1"; "3.azl3.x86_64"; "azl3"; "x86_64"]
      /\ MatchString ubuntuRegex "-1-3.azl3.x86_64" = false
      /\ parsePackageLine "-1-3.azl3.x86_64"
         = Some {| Name := "-1"; Version := "3.azl3" |}).
Proof. vm_compute. repeat split; reflexivity. Qed.

(** C6, as amended.  For every line that does not match the APT grammar,
    which is tried first, and matches the RPM grammar: the version part is
    the release version followed by [.x86_64] or [.noarch]; the name part
    is split at the last hyphen that has text before it and a digit right
    after it, into the name and the upstream version, and the version is
    the upstream version, a hyphen and the release version; when the name
    part has no such hyphen, it is the name, and the release version is the
    version.  The line [python3-cryptography-42.0.5-3.azl3.x86_64] gives
    the name [python3-cryptography] and the version [42.0.5-3.azl3]. *)
Theorem rpm_line_extraction :
  (forall line : string,
     MatchString ubuntuRegex line = false ->
     MatchString rpmRegex line = true ->
     exists namePart versionPart d a release,
       FindStringSubmatch rpmRegex line = [line; namePart; versionPart; d; a]
       /\ (a = "x86_64" \/ a = "noarch")
       /\ versionPart = release +:+ "." +:+ a
       /\ ((exists name upstream,
              lastDigitSplit namePart name upstream
              /\ parsePackageLine line
                 = Some {| Name := name;
                           Version := upstream +:+ "-" +:+ release |})
           \/ ((forall name upstream, ~ digitSplit namePart name upstream)
               /\ parsePackageLine line
                  = Some {| Name := namePart; Version := release |})))
  /\ parsePackageLine "python3-cryptography-42.0.5-3.azl3.x86_64"
     = Some {| Name := "python3-cryptography"; Version := "42.0.5-3.azl3" |}.
Proof.
  split; [|vm_compute; reflexivity].
  intros line Hapt Hrpm.
  destruct (rpmRegex_match line Hrpm)
    as (namePart & X & d & a & Hline & HN & Hall & HX & HallX & Hd & Ha & Hfind).
  exists namePart, (X +:+ "." +:+ d +:+ "." +:+ a), d, a, (X +:+ "." +:+ d).
  split; [exact Hfind|]. split; [exact Ha|].
  split; [now rewrite !app_assoc_str|].
  assert (Hne : streq line "" = false).
  { apply streq_false. rewrite Hline. destruct namePart; [congruence|discriminate]. }
  assert (Hparse : parsePackageLine line
            = let matches := FindStringSubmatch nameVersionRpm namePart in
              if (3 <=? length matches)%nat
              then Some {| Name := nth 1 matches "";
                           Version := nth 2 matches "" +:+ "-"
                                      +:+ (X +:+ "." +:+ d) |}
              else Some {| Name := namePart; Version := X +:+ "." +:+ d |}).
  { unfold parsePackageLine. rewrite Hne, (MatchString_false _ _ Hapt), Hfind.
    cbn [length Nat.leb nth]. cbv zeta.
    pose proof (release_version (X +:+ "." +:+ d) a Ha) as Hrel.
    cbv zeta in Hrel. rewrite !app_assoc_str in Hrel. rewrite Hrel.
    reflexivity. }
  rewrite Hparse. cbv zeta.
  destruct (nameVersionRpm_split namePart Hall)
    as [(name & upstream & -> & Hlast) | (-> & Hnone)].
  - left. exists name, upstream. split; [exact Hlast|reflexivity].
  - right. split; [exact Hnone|reflexivity].
Qed.

Lemma rpm_line_extraction_witness :
  exists namePart versionPart d a release,
    FindStringSubmatch rpmRegex "kernel-devel-5.15.167.4-1.azl3.x86_64"
    = ["kernel-devel-5.15.167.4-1.azl3.x86_64"; namePart; versionPart; d; a]
    /\ (a = "x86_64" \/ a = "noarch")
    /\ versionPart = release +:+ "." +:+ a
    /\ ((exists name upstream,
           lastDigitSplit namePart name upstream
           /\ parsePackageLine "kernel-devel-5.15.167.4-1.azl3.x86_64"
              = Some {| Name := name;
                        Version := upstream +:+ "-" +:+ release |})
        \/ ((forall name upstream, ~ digitSplit namePart name upstream)
            /\ parsePackageLine "kernel-devel-5.15.167.4-1.azl3.x86_64"
               = Some {| Name := namePart; Version := release |})).
Proof.
  destruct rpm_line_extraction as [Hall _].
  apply (Hall "kernel-devel-5.15.167.4-1.azl3.x86_64");
    vm_compute; reflexivity.
Defined.

(** ** Container-image lines *)

Lemma HasPrefix_app (p s : string) : HasPrefix (p +:+ s) p = true.
Proof.
  induction p as [|c p IH]; simpl; [reflexivity|].
  rewrite bool_decide_eq_true_2 by reflexivity. exact IH.
Qed.

Lemma TrimPrefix_app (p s : string) : TrimPrefix (p +:+ s) p = s.
Proof.
  unfold TrimPrefix. rewrite HasPrefix_app.
  induction p as [|c p IH]; simpl; [now destruct s|exact IH].
Qed.

Lemma isMarker_false (trimmedLine : string) :
  isMarker trimmedLine = false ->
  streq trimmedLine "=== Installed Packages Begin" = false
  /\ streq trimmedLine "=== Installed Packages End" = false
  /\ streq trimmedLine "=== os-release Begin" = false
  /\ streq trimmedLine "=== os-release End" = false
  /\ streq trimmedLine "containerd images pre-pulled:" = false.
Proof.
  unfold isMarker. intros H.
  repeat (apply orb_false_elim in H; destruct H as [H ?]). tauto.
Qed.

(** A line that is neither a marker, nor blank, nor [Listing...] goes to
    the classifier of the active section. *)
Lemma scanLine_classify (st : ScanState) (line : string) :
  isMarker (TrimSpace line) = false ->
  streq (TrimSpace line) "" = false ->
  streq (TrimSpace line) "Listing..." = false ->
  scanLine st line = classify st line (TrimSpace line).
Proof.
  intros Hm He Hl. apply isMarker_false in Hm.
  destruct Hm as (H1 & H2 & H3 & H4 & H5).
  unfold scanLine. cbv zeta. rewrite H1, H2, H3, H4, H5, He, Hl.
  reflexivity.
Qed.





(** C10.  In the container-images state, a line made of the item prefix
    and a remainder that is empty or all white space adds no record and
    leaves the state as it is, the container-images state included; an item
    line that follows is recorded: its trimmed remainder is appended to the
    images, and the tracker stays in the container-images state. *)
Theorem empty_item_line_ignored (st : ScanState) (rest : string) :
  inPackageSection st = false ->
  inOSReleaseSection st = false ->
  inContainerImagesSection st = true ->
  TrimSpace rest = "" ->
  scanLine st ("  - " +:+ rest) = st
  /\ ContainerImages (scanLine st ("  - " +:+ rest)) = ContainerImages st
  /\ tracker (scanLine st ("  - " +:+ rest)) = InContainerImages
  /\ forall name : string,
       TrimSpace name <> "" ->
       let st' := scanLine (scanLine st ("  - " +:+ rest)) ("  - " +:+ name) in
       st' = add_image st {| ImageName := TrimSpace name |}
       /\ ContainerImages st'
          = ContainerImages st ++ [{| ImageName := TrimSpace name |}]
       /\ Packages st' = Packages st
       /\ tracker st' = InContainerImages.
Proof.
  intros Hp Ho Hc Hrest.
  assert (Hitem : forall r : string,
             scanLine st ("  - " +:+ r)
             = if streq (TrimSpace r) "" then st
               else add_image st {| ImageName := TrimSpace r |}).
  { intros r.
    destruct (item_line_not_special r) as (Hm & He & Hl).
    rewrite (scanLine_classify _ _ Hm He Hl).
    unfold classify. rewrite Hp, Ho, Hc, HasPrefix_app.
    unfold parseContainerImageLine.
    rewrite HasPrefix_app, TrimPrefix_app. cbn [negb].
    assert (Hline : streq ("  - " +:+ r) "" = false)
      by (apply streq_false; discriminate).
    rewrite Hline. destruct (streq (TrimSpace r) ""); reflexivity. }
  assert (Hfirst : scanLine st ("  - " +:+ rest) = st).
  { rewrite Hitem, Hrest. reflexivity. }
  assert (Htracker : tracker st = InContainerImages).
  { unfold tracker. now rewrite Hp, Ho, Hc. }
  rewrite Hfirst.
  split; [reflexivity|]. split; [reflexivity|]. split; [exact Htracker|].
  intros name Hname. cbv zeta. rewrite Hitem.
  apply streq_false in Hname. rewrite Hname.
  split; [reflexivity|]. split; [reflexivity|]. split; [reflexivity|].
  unfold tracker. simpl. now rewrite Hp, Ho, Hc.
Qed.

Lemma empty_item_line_ignored_witness :
  scanLine (set_flags initState false false true) "  -   "
  = set_flags initState false false true
  /\ ContainerImages
       (scanLine (scanLine (set_flags initState false false true) "  -   ")
          "  - pause:3.6")
     = [{| ImageName := "pause:3.6" |}].
Proof.
  destruct (empty_item_line_ignored (set_flags initState false false true)
              "  " eq_refl eq_refl eq_refl eq_refl)
    as (Hsame & _ & _ & Hnext).
  split; [exact Hsame|].
  destruct (Hnext "pause:3.6") as (_ & Himages & _).
  - vm_compute. discriminate.
  - exact Himages.
Defined.

(** ** APT package lines *)






Lemma scanLines_app (st : ScanState) (l1 l2 : list string) :
  scanLines st (l1 ++ l2) = scanLines (scanLines st l1) l2.
Proof. unfold scanLines. apply foldl_app. Qed.





(** ** OS-release lines *)

(** What [parseOSReleaseLine] does depends on the line alone: it leaves
    every map as it is, or it stores one value under one recognized key. *)
Lemma parseOSReleaseLine_cases (line : string) :
  (forall data : gmap string string, parseOSReleaseLine line data = data)
  \/ exists key value,
       key ∈ osReleaseKeys
       /\ forall data : gmap string string,
            parseOSReleaseLine line data = <[key := value]> data.
Proof.
  unfold parseOSReleaseLine.
  destruct (streq line ""); [now left|].
  destruct (0 <? Index line "="); [|now left].
  cbv zeta.
  set (key := TrimSpace (slice_to (Z.to_nat (Index line "=")) line)).
  match goal with
  | |- context [<[key := ?v]> _] => set (value := v)
  end.
  destruct (streq key "NAME") eqn:E1;
    [|destruct (streq key "VERSION_ID") eqn:E2;
      [|destruct (streq key "VERSION") eqn:E3;
        [|destruct (streq key "PRETTY_NAME") eqn:E4;
          [|destruct (streq key "ID") eqn:E5; [|now left]]]]];
    simpl; right; exists key, value; (split; [|reflexivity]);
    match goal with
    | H : streq key _ = true |- _ => apply streq_true in H; rewrite H
    end; unfold osReleaseKeys;
    rewrite !elem_of_union, !elem_of_singleton; tauto.
Qed.

Lemma insert_size_step (key value : string) (data : gmap string string) :
  size (<[key := value]> data)
  = match data !! key with
    | Some _ => size data
    | None => S (size data)
    end.
Proof.
  destruct (data !! key) eqn:E.
  - rewrite <- !size_dom, dom_insert_L. f_equal.
    apply subseteq_union_1_L, singleton_subseteq_l, elem_of_dom. eauto.
  - now apply map_size_insert_None.
Qed.

(** X1.  One os-release line never removes an entry, never changes the
    entry of a key outside the five recognized ones, and adds at most one
    entry. *)
Theorem parseOSReleaseLine_keeps (line : string) (data : gmap string string) :
  dom data ⊆ dom (parseOSReleaseLine line data)
  /\ (forall key : string,
        key ∉ osReleaseKeys ->
        parseOSReleaseLine line data !! key = data !! key)
  /\ (size data <= size (parseOSReleaseLine line data) <= S (size data))%nat.
Proof.
  destruct (parseOSReleaseLine_cases line)
    as [Hid | (key & value & Hkey & Hins)];
    [rewrite Hid|rewrite Hins].
  - repeat split; auto.
  - repeat split.
    + rewrite dom_insert_L. apply union_subseteq_r.
    + intros k Hk. apply lookup_insert_ne. congruence.
    + rewrite (insert_size_step key value data).
      destruct (data !! key); lia.
    + rewrite (insert_size_step key value data).
      destruct (data !! key); lia.
Qed.

Lemma scanLine_keys (st : ScanState) (line : string) :
  dom (osReleaseData st) ⊆ osReleaseKeys ->
  dom (osReleaseData (scanLine st line)) ⊆ osReleaseKeys.
Proof.
  intros Hdom. unfold scanLine. cbv zeta.
  repeat match goal with
         | |- context [if streq ?a ?b then _ else _] =>
             destruct (streq a b); [exact Hdom|]
         end.
  match goal with
  | |- context [if ?c then _ else _] => destruct c; [exact Hdom|]
  end.
  unfold classify.
  destruct (inPackageSection st).
  { destruct (parsePackageLine _); [|exact Hdom].
    destruct (isUbuntuPackageFormat _); [exact Hdom|].
    destruct (isRPMPackageFormat _); exact Hdom. }
  destruct (inOSReleaseSection st).
  { simpl.
    destruct (parseOSReleaseLine_cases (TrimSpace line))
      as [Hid | (key & value & Hkey & Hins)];
      [now rewrite Hid|rewrite Hins].
    rewrite dom_insert_L. apply union_subseteq. split; [|exact Hdom].
    now apply singleton_subseteq_l. }
  destruct (inContainerImagesSection st); [|exact Hdom].
  destruct (HasPrefix line "  - ").
  - destruct (parseContainerImageLine line); exact Hdom.
  - destruct (negb _); exact Hdom.
Qed.

(** X2.  Whatever the input, the os-release map that [Parse] builds holds
    only the five recognized keys, hence at most five entries. *)
Theorem osReleaseData_keys (lines : list string) :
  dom (osReleaseData (scanLines initState lines)) ⊆ osReleaseKeys
  /\ (size (osReleaseData (scanLines initState lines)) <= 5)%nat.
Proof.
  assert (Hdom : dom (osReleaseData (scanLines initState lines))
                 ⊆ osReleaseKeys).
  { unfold scanLines.
    assert (H0 : dom (osReleaseData initState) ⊆ osReleaseKeys)
      by (simpl; rewrite dom_empty_L; apply empty_subseteq).
    revert H0. generalize initState as st.
    induction lines as [|line lines IH]; intros st Hst; simpl; [exact Hst|].
    apply IH. now apply scanLine_keys. }
  split; [exact Hdom|].
  rewrite <- size_dom. apply subseteq_size in Hdom.
  replace (size osReleaseKeys) with 5%nat in Hdom by (vm_compute; reflexivity).
  exact Hdom.
Qed.

(** X3.  The order of two os-release lines matters only when both store
    the same key, and then the later line wins: either the two lines
    commute, or each one overwrites what the other stored. *)
Theorem parseOSReleaseLine_order
    (line1 line2 : string) (data : gmap string string) :
  parseOSReleaseLine line2 (parseOSReleaseLine line1 data)
  = parseOSReleaseLine line1 (parseOSReleaseLine line2 data)
  \/ (parseOSReleaseLine line2 (parseOSReleaseLine line1 data)
      = parseOSReleaseLine line2 data
      /\ parseOSReleaseLine line1 (parseOSReleaseLine line2 data)
         = parseOSReleaseLine line1 data).
Proof.
  destruct (parseOSReleaseLine_cases line1)
    as [Hid1 | (key1 & value1 & _ & Hins1)].
  { left. now rewrite !Hid1. }
  destruct (parseOSReleaseLine_cases line2)
    as [Hid2 | (key2 & value2 & _ & Hins2)].
  { left. now rewrite !Hid2. }
  rewrite !Hins1, !Hins2.
  destruct (decide (key1 = key2)) as [<- | Hne].
  - right. split; apply insert_insert_eq.
  - left. now apply insert_insert_ne.
Qed.

Lemma Index_from_none (x : ascii) (s : string) (i : Z) :
  all (not_char x) s = true -> Index_from i s (String x "") = -1.
Proof.
  revert i. induction s as [|c t IH]; intros i Hall; [reflexivity|].
  simpl in Hall. apply andb_true_iff in Hall as [Hc Hall].
  unfold not_char in Hc. apply negb_true_iff, bool_decide_eq_false in Hc.
  cbn [Index_from HasPrefix]. rewrite bool_decide_eq_false_2 by congruence.
  cbn [andb]. now apply IH.
Qed.

Lemma Index_from_app (x : ascii) (a rest : string) (i : Z) :
  all (not_char x) a = true ->
  Index_from i (a +:+ String x rest) (String x "") = i + Z.of_nat (len a).
Proof.
  revert i. induction a as [|c a IH]; intros i Hall; str_simpl.
  - cbn [Index_from HasPrefix]. rewrite bool_decide_eq_true_2 by reflexivity.
    simpl. lia.
  - simpl in Hall. apply andb_true_iff in Hall as [Hc Hall].
    unfold not_char in Hc. apply negb_true_iff, bool_decide_eq_false in Hc.
    cbn [Index_from HasPrefix]. rewrite bool_decide_eq_false_2 by congruence.
    cbn [andb]. rewrite IH by exact Hall. simpl. lia.
Qed.

(** X4.  A line without an equals sign, and a line that starts with one,
    leave the os-release map as it is. *)
Theorem parseOSReleaseLine_ignored (line : string) (data : gmap string string) :
  all (not_char "=") line = true \/ HasPrefix line "=" = true ->
  parseOSReleaseLine line data = data.
Proof.
  intros H. unfold parseOSReleaseLine.
  destruct (streq line ""); [reflexivity|].
  assert (Hidx : Index line "=" <= 0).
  { destruct H as [Hnone | Hfirst].
    - unfold Index. rewrite Index_from_none by exact Hnone. lia.
    - unfold Index. destruct line as [|c t]; [discriminate Hfirst|].
      cbn [Index_from]. rewrite Hfirst. lia. }
  destruct (0 <? Index line "=") eqn:E; [apply Z.ltb_lt in E; lia|].
  reflexivity.
Qed.

Lemma parseOSReleaseLine_ignored_witness :
  parseOSReleaseLine "=ubuntu" {[ "ID" := "debian" ]} = {[ "ID" := "debian" ]}.
Proof.
  apply parseOSReleaseLine_ignored. right. reflexivity.
Defined.

Lemma quoted_unwrap (w : string) :
  (2 <=? len (quoted w))%nat = true
  /\ byte_at 0 (quoted w) = Some dquote
  /\ byte_at (len (quoted w) - 1) (quoted w) = Some dquote
  /\ slice_to (len (quoted w) - 2) (slice_from 1 (quoted w)) = w.
Proof.
  unfold quoted. cbn [len slice_from byte_at Nat.leb].
  rewrite len_app. cbn [len].
  replace (S (len w + 1) - 1)%nat with (S (len w)) by lia.
  replace (S (len w + 1) - 2)%nat with (len w) by lia.
  split; [now rewrite Nat.add_1_r|]. split; [reflexivity|].
  split; [|apply slice_to_app].
  cbn [byte_at]. induction w as [|c w IH]; str_simpl; [reflexivity|exact IH].
Qed.

(** X5.  A line made of a recognized key, an equals sign and a value stores
    under that key the trimmed value, without its double quotes when it has
    them on both sides; only the first equals sign separates, and one pair
    of quotes is removed. *)
Theorem parseOSReleaseLine_stores
    (key v w : string) (data : gmap string string) :
  key ∈ osReleaseKeys ->
  TrimSpace v = quoted w
  \/ (TrimSpace v = w
      /\ ((len w < 2)%nat \/ byte_at 0 w <> Some dquote
          \/ byte_at (len w - 1) w <> Some dquote)) ->
  parseOSReleaseLine (key +:+ "=" +:+ v) data = <[key := w]> data.
Proof.
  intros Hkey Hv.
  assert (Hk : all (not_char "=") key = true /\ TrimSpace key = key
               /\ key <> ""
               /\ (streq key "NAME" || streq key "VERSION_ID"
                   || streq key "VERSION" || streq key "PRETTY_NAME"
                   || streq key "ID") = true).
  { unfold osReleaseKeys in Hkey.
    rewrite !elem_of_union, !elem_of_singleton in Hkey.
    destruct Hkey as [[[[-> | ->] | ->] | ->] | ->];
      vm_compute; repeat split; discriminate. }
  destruct Hk as (Hall & Htrim & Hne & Hrec).
  unfold parseOSReleaseLine.
  assert (Hline : streq (key +:+ "=" +:+ v) "" = false).
  { apply streq_false. destruct key; [congruence|discriminate]. }
  rewrite Hline. unfold Index.
  change (key +:+ "=" +:+ v) with (key +:+ String "=" v).
  rewrite (Index_from_app "=" key v 0 Hall).
  assert (Hpos : (0 <? 0 + Z.of_nat (len key)) = true).
  { apply Z.ltb_lt. destruct key; [congruence|simpl; lia]. }
  rewrite Hpos. cbv zeta.
  replace (Z.to_nat (0 + Z.of_nat (len key))) with (len key) by lia.
  replace (Z.to_nat (0 + Z.of_nat (len key) + 1))
    with (len (key +:+ "=")) by (rewrite len_app; simpl; lia).
  rewrite slice_to_app, Htrim.
  change (key +:+ String "=" v) with (key +:+ "=" +:+ v).
  rewrite <- (app_assoc_str key "=" v), slice_from_app, Hrec.
  destruct Hv as [Hq | [-> Hplain]].
  - rewrite Hq. destruct (quoted_unwrap w) as (H2 & H0 & Hlast & Hslice).
    rewrite H2, H0, Hlast, Hslice.
    rewrite !bool_decide_eq_true_2 by reflexivity. reflexivity.
  - match goal with
    | |- context [if ?c then _ else _] =>
        destruct c eqn:E; [|reflexivity]
    end.
    apply andb_true_iff in E as [E Elast].
    apply andb_true_iff in E as [Elen Efirst].
    apply Nat.leb_le in Elen.
    apply bool_decide_eq_true in Efirst, Elast.
    destruct Hplain as [? | [? | ?]]; [lia|contradiction|contradiction].
Qed.

Lemma parseOSReleaseLine_stores_witness :
  parseOSReleaseLine ("PRETTY_NAME" +:+ "=" +:+ " " +:+ quoted "a=b") ∅
  = <[ "PRETTY_NAME" := "a=b" ]> ∅.
Proof.
  apply parseOSReleaseLine_stores.
  - unfold osReleaseKeys. rewrite !elem_of_union, !elem_of_singleton. tauto.
  - left. vm_compute. reflexivity.
Defined.

(** ** Package lines and the two counters *)

Lemma parsePackageLine_None_formats (line : string) :
  parsePackageLine line = None
  <-> isUbuntuPackageFormat line = false /\ isRPMPackageFormat line = false.
Proof.
  unfold parsePackageLine, isUbuntuPackageFormat, isRPMPackageFormat.
  destruct (streq line "") eqn:Hempty.
  { apply streq_true in Hempty. subst line. split; [|reflexivity].
    intros _. split; vm_compute; reflexivity. }
  cbv zeta.
  destruct (MatchString ubuntuRegex line) eqn:Hu.
  { rewrite (MatchString_true_length _ _ Hu). simpl.
    split; [discriminate|]. intros [? _]. discriminate. }
  rewrite (MatchString_false _ _ Hu). simpl.
  destruct (MatchString rpmRegex line) eqn:Hr.
  - rewrite (MatchString_true_length _ _ Hr). simpl.
    split; [|intros [_ ?]; discriminate].
    match goal with
    | |- context [if ?c then _ else _] => destruct c
    end; discriminate.
  - rewrite (MatchString_false _ _ Hr). simpl. tauto.
Qed.

Lemma incr_small (c : Z) : 0 <= c < 2 ^ 63 - 1 -> incr c = c + 1.
Proof.
  intros Hc. unfold incr, int_wrap.
  rewrite Z.mod_small; lia.
Qed.

(** X6.  A line yields a package exactly when it has the APT format or the
    RPM format; the empty line has neither. *)
Theorem parsePackageLine_None_iff (line : string) :
  parsePackageLine line = None
  <-> isUbuntuPackageFormat line = false /\ isRPMPackageFormat line = false.
Proof. apply parsePackageLine_None_formats. Qed.

(** One line adds at most one package, and then exactly one of the two
    counters counts it. *)
Lemma scanLine_counters (st : ScanState) (line : string) :
  (Packages (scanLine st line) = Packages st
   /\ ubuntuPackageCount (scanLine st line) = ubuntuPackageCount st
   /\ rpmPackageCount (scanLine st line) = rpmPackageCount st)
  \/ (exists pkg,
        Packages (scanLine st line) = Packages st ++ [pkg]
        /\ ((ubuntuPackageCount (scanLine st line)
             = incr (ubuntuPackageCount st)
             /\ rpmPackageCount (scanLine st line) = rpmPackageCount st)
            \/ (ubuntuPackageCount (scanLine st line) = ubuntuPackageCount st
                /\ rpmPackageCount (scanLine st line)
                   = incr (rpmPackageCount st)))).
Proof.
  unfold scanLine. cbv zeta.
  repeat match goal with
         | |- context [if streq ?a ?b then _ else _] =>
             destruct (streq a b); [left; repeat split|]
         end.
  match goal with
  | |- context [if ?c then _ else _] => destruct c; [left; repeat split|]
  end.
  unfold classify.
  destruct (inPackageSection st).
  { destruct (parsePackageLine (TrimSpace line)) as [pkg|] eqn:Hpkg;
      [|left; repeat split].
    right. exists pkg.
    destruct (isUbuntuPackageFormat (TrimSpace line)) eqn:Hu;
      [split; [reflexivity|left; split; reflexivity]|].
    destruct (isRPMPackageFormat (TrimSpace line)) eqn:Hr;
      [split; [reflexivity|right; split; reflexivity]|].
    exfalso.
    assert (Hnone : parsePackageLine (TrimSpace line) = None)
      by (apply parsePackageLine_None_formats; now split).
    congruence. }
  destruct (inOSReleaseSection st); [left; repeat split|].
  destruct (inContainerImagesSection st); [|left; repeat split].
  destruct (HasPrefix line "  - ").
  - destruct (parseContainerImageLine line); left; repeat split.
  - destruct (negb _); left; repeat split.
Qed.

(** X7.  On an input of fewer than 2^63 lines, the two format counters are
    not negative and add up to the number of packages extracted, which is at
    most the number of lines: each package is counted once, as APT or as
    RPM. *)
Theorem counters_partition_packages (lines : list string) :
  Z.of_nat (length lines) < 2 ^ 63 ->
  let st := scanLines initState lines in
  0 <= ubuntuPackageCount st /\ 0 <= rpmPackageCount st
  /\ ubuntuPackageCount st + rpmPackageCount st
     = Z.of_nat (length (Packages st))
  /\ (length (Packages st) <= length lines)%nat.
Proof.
  intros Hlen st.
  assert (Hgen : forall (ls : list string) (s0 : ScanState) (n : nat),
             0 <= ubuntuPackageCount s0 -> 0 <= rpmPackageCount s0 ->
             ubuntuPackageCount s0 + rpmPackageCount s0
             = Z.of_nat (length (Packages s0)) ->
             (length (Packages s0) <= n)%nat ->
             Z.of_nat (n + length ls) < 2 ^ 63 ->
             let s1 := scanLines s0 ls in
             0 <= ubuntuPackageCount s1 /\ 0 <= rpmPackageCount s1
             /\ ubuntuPackageCount s1 + rpmPackageCount s1
                = Z.of_nat (length (Packages s1))
             /\ (length (Packages s1) <= n + length ls)%nat).
  { induction ls as [|line ls IH]; intros s0 n Hu Hr Hsum Hn Hbound.
    - simpl. repeat split; try assumption. lia.
    - simpl in Hbound. unfold scanLines. simpl.
      replace (n + S (length ls))%nat with (S n + length ls)%nat by lia.
      apply IH; try (simpl in *; lia);
        destruct (scanLine_counters s0 line)
          as [(Hp & Hu' & Hr') | (pkg & Hp & [[Hu' Hr'] | [Hu' Hr']])];
        rewrite ?Hp, ?Hu', ?Hr', ?length_app; simpl;
        rewrite ?incr_small by lia; lia. }
  apply (Hgen lines initState O); simpl; lia.
Qed.

Lemma counters_partition_packages_witness :
  let st := scanLines initState full_build_output in
  0 <= ubuntuPackageCount st /\ 0 <= rpmPackageCount st
  /\ ubuntuPackageCount st + rpmPackageCount st
     = Z.of_nat (length (Packages st))
  /\ (length (Packages st) <= length full_build_output)%nat.
Proof.
  apply counters_partition_packages. vm_compute. reflexivity.
Defined.

(** X8.  The distro decision gives Mariner exactly when the os-release map
    is not empty and its [ID] is [mariner]: the package counters never
    select it. *)
Theorem detectDistro_Mariner_iff
    (data : gmap string string) (ubuntuCount rpmCount : Z) :
  detectDistro data ubuntuCount rpmCount = DistroMariner
  <-> (0 < size data)%nat /\ field data "ID" = "mariner".
Proof.
  unfold detectDistro, detectDistroFromID.
  destruct (0 <? size data)%nat eqn:Hsize.
  - apply Nat.ltb_lt in Hsize.
    destruct (streq (field data "ID") "ubuntu") eqn:E1;
      [apply streq_true in E1; rewrite E1; simpl;
       split; [discriminate|intros [_ ?]; discriminate]|].
    destruct (streq (field data "ID") "debian") eqn:E2;
      [apply streq_true in E2; rewrite E2; simpl;
       split; [discriminate|intros [_ ?]; discriminate]|].
    destruct (streq (field data "ID") "azurelinux") eqn:E3;
      [apply streq_true in E3; rewrite E3; simpl;
       split; [discriminate|intros [_ ?]; discriminate]|].
    destruct (streq (field data "ID") "mariner") eqn:E4; simpl.
    + apply streq_true in E4. tauto.
    + apply streq_false in E4.
      destruct (rpmCount >? ubuntuCount);
        [split; [discriminate|tauto]|].
      destruct (ubuntuCount >? rpmCount); split;
        try discriminate; tauto.
  - apply Nat.ltb_ge in Hsize. simpl.
    destruct (rpmCount >? ubuntuCount);
      [split; [discriminate|lia]|].
    destruct (ubuntuCount >? rpmCount); split; try discriminate; lia.
Qed.

(** ** The scan as a whole *)

(** One line appends to the two lists or leaves them as they are. *)
Lemma scanLine_appends (st : ScanState) (line : string) :
  Packages st `prefix_of` Packages (scanLine st line)
  /\ ContainerImages st `prefix_of` ContainerImages (scanLine st line).
Proof.
  unfold scanLine. cbv zeta.
  repeat match goal with
         | |- context [if streq ?a ?b then _ else _] =>
             destruct (streq a b); [split; reflexivity|]
         end.
  match goal with
  | |- context [if ?c then _ else _] => destruct c; [split; reflexivity|]
  end.
  unfold classify.
  repeat match goal with
         | |- context [if ?c then _ else _] => destruct c
         | |- context [match ?c with Some _ => _ | None => _ end] => destruct c
         end; simpl; split; try reflexivity; apply prefix_app_r; reflexivity.
Qed.

(** X9.  The scan only appends: the packages and the images extracted from
    the first lines of an input stay, in the same order, at the front of
    those extracted from the whole input. *)
Theorem scan_append_only (first rest : list string) :
  Packages (scanLines initState first)
    `prefix_of` Packages (scanLines initState (first ++ rest))
  /\ ContainerImages (scanLines initState first)
       `prefix_of` ContainerImages (scanLines initState (first ++ rest)).
Proof.
  rewrite scanLines_app. generalize (scanLines initState first) as st.
  induction rest as [|line rest IH]; intros st; [split; reflexivity|].
  unfold scanLines in *. simpl.
  destruct (scanLine_appends st line) as [Hp Hi].
  destruct (IH (scanLine st line)) as [Hp' Hi'].
  split; etransitivity; eassumption.
Qed.

(** X10.  Outside every section, only the three opening markers have an
    effect: any other line leaves the whole scan state as it is. *)
Theorem scanLine_outside_sections (st : ScanState) (line : string) :
  tracker st = SecNone ->
  TrimSpace line <> "=== Installed Packages Begin" ->
  TrimSpace line <> "=== os-release Begin" ->
  TrimSpace line <> "containerd images pre-pulled:" ->
  scanLine st line = st.
Proof.
  unfold tracker. intros Hnone Hp Ho Hc.
  destruct (inPackageSection st) eqn:E1; [discriminate|].
  destruct (inOSReleaseSection st) eqn:E2; [discriminate|].
  destruct (inContainerImagesSection st) eqn:E3; [discriminate|].
  apply streq_false in Hp, Ho, Hc.
  assert (Hid : set_flags st false false false = st).
  { destruct st. simpl in *. now subst. }
  unfold scanLine. cbv zeta. rewrite Hp, Ho, Hc, E1, E2, E3.
  destruct (streq (TrimSpace line) "=== Installed Packages End");
    [exact Hid|].
  destruct (streq (TrimSpace line) "=== os-release End"); [exact Hid|].
  rewrite andb_false_r. unfold classify. now rewrite E1, E2, E3.
Qed.

Lemma scanLine_outside_sections_witness :
  scanLine initState "=== os-release End" = initState.
Proof.
  apply scanLine_outside_sections; try reflexivity; vm_compute; discriminate.
Defined.

(** ** The APT pattern *)

Lemma exec_Star_Some (p : ascii -> bool) (pos : nat) (s : string)
    (caps : captures) (k : cont) (r : captures) :
  exec (Star p) pos s caps k = Some r ->
  exists a b, s = a +:+ b /\ all p a = true
    /\ k (pos + len a)%nat b caps = Some r.
Proof.
  cbn [exec]. intros H.
  destruct (star_Some _ _ _ _ _ H) as (a & b & Hs & Hall & Hk & _). eauto.
Qed.

(** A line that matches the APT pattern starts with a non-empty name
    without a slash, followed by a slash; the version group is not empty and
    holds no white space; the groups hold the name and the version. *)
Lemma ubuntuRegex_match (line : string) :
  MatchString ubuntuRegex line = true ->
  exists whole name rest version,
    line = name +:+ "/" +:+ rest
    /\ name <> "" /\ all (not_char "/") name = true
    /\ version <> "" /\ all perl_not_space version = true
    /\ FindStringSubmatch ubuntuRegex line = [whole; name; version].
Proof.
  unfold MatchString, FindStringSubmatch.
  intros H. apply bool_decide_eq_true in H. destruct H as [r Hr].
  rewrite Hr. revert Hr.
  unfold ubuntuRegex at 1. rewrite search_anchored. unfold match_at.
  rewrite exec_Concat. change (exec BeginText O line ∅ ?k) with (k O line ∅).
  cbv beta. intros H.
  rewrite exec_Concat, exec_Capture in H.
  apply exec_Plus_Some in H as (name & b1 & -> & Hname & Hallname & H & _).
  cbv beta in H. rewrite exec_Concat in H.
  apply exec_Literal_Some in H as (rest & -> & H). cbv beta in H.
  rewrite exec_Concat in H.
  apply exec_Star_Some in H as (a2 & b2 & Hrest & _ & H). cbv beta in H.
  rewrite exec_Concat in H.
  apply exec_Literal_Some in H as (b3 & -> & H). cbv beta in H.
  rewrite exec_Concat in H.
  apply exec_Plus_Some in H as (a4 & b4 & -> & _ & _ & H & _). cbv beta in H.
  rewrite exec_Concat, exec_Capture in H.
  apply exec_Plus_Some in H as (version & b5 & -> & Hver & Hallver & H & _).
  cbv beta in H. rewrite exec_Concat in H.
  apply exec_Plus_Some in H as (a6 & b6 & -> & _ & _ & H & _). cbv beta in H.
  rewrite exec_Concat in H.
  apply exec_Plus_Some in H as (a7 & b7 & -> & _ & _ & H & _). cbv beta in H.
  rewrite exec_Concat in H.
  apply exec_Plus_Some in H as (a8 & b8 & -> & _ & _ & H & _). cbv beta in H.
  rewrite exec_Concat in H.
  apply exec_Literal_Some in H as (b9 & -> & H). cbv beta in H.
  rewrite exec_Concat in H.
  apply exec_Star_Some in H as (a10 & b10 & -> & _ & H). cbv beta in H.
  apply exec_Literal_Some in H as (b11 & -> & H). cbv beta in H.
  injection H as <-.
  eexists _, name, rest, version.
  repeat (split; [first [reflexivity | assumption]|]).
  change (seq 0 (S (NumSubexp ubuntuRegex))) with [0; 1; 2]%nat.
  cbn [fmap list_fmap].
  rewrite lookup_insert_eq.
  rewrite lookup_insert_ne, lookup_insert_ne, lookup_insert_eq by lia.
  rewrite lookup_insert_ne, lookup_insert_eq by lia.
  cbn [default from_option].
  rewrite !Nat.sub_0_r, slice_to_app.
  match goal with
  | |- context [slice_to (?x - ?y) (version +:+ _)] =>
      replace (x - y)%nat with (len version) by lia
  end.
  now rewrite slice_to_app.
Qed.

(** The package of a line that has the APT format. *)
Lemma parsePackageLine_apt (line : string) :
  MatchString ubuntuRegex line = true ->
  exists name rest version,
    line = name +:+ "/" +:+ rest
    /\ name <> "" /\ all (not_char "/") name = true
    /\ version <> "" /\ all perl_not_space version = true
    /\ parsePackageLine line = Some {| Name := name; Version := version |}.
Proof.
  intros Hm.
  destruct (ubuntuRegex_match line Hm)
    as (whole & name & rest & version & Hline & Hname & Hallname
        & Hver & Hallver & Hfind).
  exists name, rest, version. repeat (split; [assumption|]).
  unfold parsePackageLine. rewrite Hfind.
  assert (Hne : streq line "" = false).
  { apply streq_false. rewrite Hline.
    destruct name; [congruence|discriminate]. }
  now rewrite Hne.
Qed.

(** X11.  For a line of the APT format, the package name is the text
    before the first slash of the line, and it is not empty; the version is
    not empty and holds none of the five characters of the class [\s] of the
    pattern: tab, line feed, form feed, carriage return and space.  Other
    white space is not excluded: a version can hold a vertical tab. *)
Theorem apt_line_name_version :
  (forall line : string,
     isUbuntuPackageFormat line = true ->
     exists pkg,
       parsePackageLine line = Some pkg
       /\ Name pkg = slice_to (Z.to_nat (Index line "/")) line
       /\ Name pkg <> "" /\ Version pkg <> ""
       /\ all perl_not_space (Version pkg) = true)
  /\ parsePackageLine ("a/b,now " +:+ String (chr 11) "1 x [y]")
     = Some {| Name := "a"; Version := String (chr 11) "1" |}.
Proof.
  split; [|vm_compute; reflexivity].
  intros line. unfold isUbuntuPackageFormat. intros Hm.
  destruct (parsePackageLine_apt line Hm)
    as (name & rest & version & Hline & Hname & Hallname
        & Hver & Hallver & Hparse).
  exists {| Name := name; Version := version |}.
  split; [exact Hparse|].
  cbn [Name Version]. repeat split; try assumption.
  rewrite Hline. unfold Index.
  change (name +:+ "/" +:+ rest) with (name +:+ String "/" rest).
  rewrite (Index_from_app "/" name rest 0 Hallname).
  replace (Z.to_nat (0 + Z.of_nat (len name))) with (len name) by lia.
  now rewrite slice_to_app.
Qed.

Lemma apt_line_name_version_witness :
  exists pkg,
    parsePackageLine "adduser/noble,now 3.137ubuntu1 all [installed,automatic]"
    = Some pkg
    /\ Name pkg
       = slice_to
           (Z.to_nat
              (Index "adduser/noble,now 3.137ubuntu1 all [installed,automatic]"
                 "/"))
           "adduser/noble,now 3.137ubuntu1 all [installed,automatic]"
    /\ Name pkg <> "" /\ Version pkg <> ""
    /\ all perl_not_space (Version pkg) = true.
Proof.
  destruct apt_line_name_version as [Hall _].
  apply Hall. vm_compute. reflexivity.
Defined.

(** ** RPM lines and [OSPackage.String] *)

(** The package of a line that has the RPM format and not the APT one. *)
Lemma parsePackageLine_rpm (line : string) :
  MatchString ubuntuRegex line = false ->
  MatchString rpmRegex line = true ->
  exists namePart release a,
    line = namePart +:+ "-" +:+ release +:+ "." +:+ a
    /\ namePart <> "" /\ release <> ""
    /\ (a = "x86_64" \/ a = "noarch")
    /\ ((exists name upstream,
           digitSplit namePart name upstream
           /\ parsePackageLine line
              = Some {| Name := name;
                        Version := upstream +:+ "-" +:+ release |})
        \/ parsePackageLine line
           = Some {| Name := namePart; Version := release |}).
Proof.
  intros Hapt Hrpm.
  destruct (rpmRegex_match line Hrpm)
    as (namePart & X & d & a & Hline & HN & Hall & HX & HallX & Hd & Ha & Hfind).
  exists namePart, (X +:+ "." +:+ d), a.
  split; [now rewrite !app_assoc_str|]. split; [exact HN|].
  split; [destruct X; [congruence|discriminate]|]. split; [exact Ha|].
  assert (Hne : streq line "" = false).
  { apply streq_false. rewrite Hline.
    destruct namePart; [congruence|discriminate]. }
  assert (Hparse : parsePackageLine line
            = let matches := FindStringSubmatch nameVersionRpm namePart in
              if (3 <=? length matches)%nat
              then Some {| Name := nth 1 matches "";
                           Version := nth 2 matches "" +:+ "-"
                                      +:+ (X +:+ "." +:+ d) |}
              else Some {| Name := namePart; Version := X +:+ "." +:+ d |}).
  { unfold parsePackageLine. rewrite Hne, (MatchString_false _ _ Hapt), Hfind.
    cbn [length Nat.leb nth]. cbv zeta.
    pose proof (release_version (X +:+ "." +:+ d) a Ha) as Hrel.
    cbv zeta in Hrel. rewrite !app_assoc_str in Hrel. rewrite Hrel.
    reflexivity. }
  rewrite Hparse. cbv zeta.
  destruct (nameVersionRpm_split namePart Hall)
    as [(name & upstream & -> & Hlast & _) | (-> & _)].
  - left. exists name, upstream. split; [exact Hlast|reflexivity].
  - right. reflexivity.
Qed.

(** X12.  For a line of the RPM format (and not of the APT one), the
    printed form of the package, name-version, is the line without its
    architecture suffix: nothing else of the line is lost or changed. *)
Theorem rpm_line_round_trip (line : string) :
  isUbuntuPackageFormat line = false ->
  isRPMPackageFormat line = true ->
  exists pkg arch,
    parsePackageLine line = Some pkg
    /\ (arch = "x86_64" \/ arch = "noarch")
    /\ OSPackage_String pkg +:+ "." +:+ arch = line.
Proof.
  intros Hapt Hrpm.
  destruct (parsePackageLine_rpm line Hapt Hrpm)
    as (namePart & release & a & Hline & _ & _ & Ha
        & [(name & upstream & (HN & _) & Hp) | Hp]).
  - eexists _, a. split; [exact Hp|]. split; [exact Ha|].
    unfold OSPackage_String. cbn [Name Version].
    rewrite Hline, HN, !app_assoc_str. reflexivity.
  - eexists _, a. split; [exact Hp|]. split; [exact Ha|].
    unfold OSPackage_String. cbn [Name Version].
    rewrite Hline, !app_assoc_str. reflexivity.
Qed.

Lemma rpm_line_round_trip_witness :
  exists pkg arch,
    parsePackageLine "cloud-init-azure-kvp-24.3.1-1.cm2.noarch" = Some pkg
    /\ (arch = "x86_64" \/ arch = "noarch")
    /\ OSPackage_String pkg +:+ "." +:+ arch
       = "cloud-init-azure-kvp-24.3.1-1.cm2.noarch".
Proof.
  apply rpm_line_round_trip; vm_compute; reflexivity.
Defined.

(** ** What [Parse] extracts *)

Lemma parsePackageLine_nonempty (line : string) (pkg : OSPackage) :
  parsePackageLine line = Some pkg -> Name pkg <> "" /\ Version pkg <> "".
Proof.
  intros Hp.
  destruct (isUbuntuPackageFormat line) eqn:Hu.
  - destruct (parsePackageLine_apt line Hu)
      as (name & rest & version & _ & Hn & _ & Hv & _ & Hp').
    assert (pkg = {| Name := name; Version := version |}) by congruence.
    subst pkg. now split.
  - destruct (isRPMPackageFormat line) eqn:Hr.
    + destruct (parsePackageLine_rpm line Hu Hr)
        as (namePart & release & a & _ & HN & HR & _
            & [(name & upstream & (_ & Hname & c & t & -> & _) & Hp') | Hp']).
      * assert (pkg = {| Name := name;
                         Version := String c t +:+ "-" +:+ release |})
          by congruence.
        subst pkg. split; [exact Hname|discriminate].
      * assert (pkg = {| Name := namePart; Version := release |})
          by congruence.
        subst pkg. now split.
    + assert (parsePackageLine line = None)
        by (apply parsePackageLine_None_formats; now split).
      congruence.
Qed.

Lemma parseContainerImageLine_nonempty (line : string) (image : ContainerImage) :
  parseContainerImageLine line = Some image -> ImageName image <> "".
Proof.
  unfold parseContainerImageLine.
  destruct (streq line ""); [discriminate|].
  destruct (negb _); [discriminate|].
  destruct (streq (TrimSpace (TrimPrefix line "  - ")) "") eqn:E;
    [discriminate|].
  intros [= <-]. now apply streq_false.
Qed.

(** Whatever one line adds to the two lists comes from the classifiers. *)
Lemma scanLine_origin (st : ScanState) (line : string) :
  (Packages (scanLine st line) = Packages st
   \/ exists pkg, parsePackageLine (TrimSpace line) = Some pkg
        /\ Packages (scanLine st line) = Packages st ++ [pkg])
  /\ (ContainerImages (scanLine st line) = ContainerImages st
      \/ exists image, parseContainerImageLine line = Some image
           /\ ContainerImages (scanLine st line)
              = ContainerImages st ++ [image]).
Proof.
  unfold scanLine. cbv zeta.
  repeat match goal with
         | |- context [if streq ?a ?b then _ else _] =>
             destruct (streq a b); [split; left; reflexivity|]
         end.
  match goal with
  | |- context [if ?c then _ else _] =>
      destruct c; [split; left; reflexivity|]
  end.
  unfold classify.
  destruct (inPackageSection st).
  { destruct (parsePackageLine (TrimSpace line)) as [pkg|] eqn:Hpkg;
      [|split; left; reflexivity].
    split; [right; exists pkg; split; [reflexivity|]|left];
      (destruct (isUbuntuPackageFormat (TrimSpace line));
       [|destruct (isRPMPackageFormat (TrimSpace line))]); reflexivity. }
  destruct (inOSReleaseSection st); [split; left; reflexivity|].
  destruct (inContainerImagesSection st); [|split; left; reflexivity].
  destruct (HasPrefix line "  - ").
  - destruct (parseContainerImageLine line) as [image|] eqn:Himg;
      [|split; left; reflexivity].
    split; [left; reflexivity|right; exists image; split; reflexivity].
  - destruct (negb _); split; left; reflexivity.
Qed.

(** X13.  Every package in the result of [Parse] has a name and a version
    that are not empty, and every container image a name that is not
    empty. *)
Theorem Parse_records_nonempty (lines : list string) :
  exists result,
    fst (Parse (linesReader lines)) = Some result
    /\ Forall (fun pkg => Name pkg <> "" /\ Version pkg <> "")
         (ResultPackages result)
    /\ Forall (fun image => ImageName image <> "")
         (ResultContainerImages result).
Proof.
  assert (Hinv : forall (ls : list string) (st : ScanState),
             Forall (fun pkg => Name pkg <> "" /\ Version pkg <> "")
               (Packages st) ->
             Forall (fun image => ImageName image <> "")
               (ContainerImages st) ->
             Forall (fun pkg => Name pkg <> "" /\ Version pkg <> "")
               (Packages (scanLines st ls))
             /\ Forall (fun image => ImageName image <> "")
                  (ContainerImages (scanLines st ls))).
  { induction ls as [|line ls IH]; intros st Hp Hi; [now split|].
    unfold scanLines in *. simpl. apply IH.
    - destruct (scanLine_origin st line) as [[-> | (pkg & Hpkg & ->)] _];
        [exact Hp|].
      apply Forall_app. split; [exact Hp|].
      constructor; [|constructor].
      now apply (parsePackageLine_nonempty (TrimSpace line)).
    - destruct (scanLine_origin st line) as [_ [-> | (image & Himg & ->)]];
        [exact Hi|].
      apply Forall_app. split; [exact Hi|].
      constructor; [|constructor].
      now apply (parseContainerImageLine_nonempty line). }
  destruct (Hinv lines initState) as [Hp Hi]; [constructor|constructor|].
  unfold Parse, linesReader, finish. simpl.
  match goal with
  | |- context [if ?c then _ else _] => destruct c
  end; eexists; (split; [reflexivity|]); simpl; now split.
Qed.

(** ** [OSDistro.String] *)

(** X14.  [OSDistro.String] prints [Unknown] for every value that is none
    of the three supported distros, and tells the supported ones apart. *)
Theorem OSDistro_String_names :
  (forall d : OSDistro,
     OSDistro_String d = "Unknown"
     <-> d <> DistroUbuntu /\ d <> DistroAzureLinux /\ d <> DistroMariner)
  /\ (forall d1 d2 : OSDistro,
        OSDistro_String d1 = OSDistro_String d2 ->
        OSDistro_String d1 <> "Unknown" -> d1 = d2).
Proof.
  assert (Hcases : forall d : OSDistro,
             (d = DistroUbuntu /\ OSDistro_String d = "Ubuntu/Debian")
             \/ (d = DistroAzureLinux /\ OSDistro_String d = "Azure Linux")
             \/ (d = DistroMariner /\ OSDistro_String d = "CBL-Mariner")
             \/ (d <> DistroUbuntu /\ d <> DistroAzureLinux
                 /\ d <> DistroMariner /\ OSDistro_String d = "Unknown")).
  { intros d. unfold OSDistro_String.
    destruct (d =? DistroUbuntu) eqn:E1;
      [apply Z.eqb_eq in E1; now left|apply Z.eqb_neq in E1].
    destruct (d =? DistroAzureLinux) eqn:E2;
      [apply Z.eqb_eq in E2; now right; left|apply Z.eqb_neq in E2].
    destruct (d =? DistroMariner) eqn:E3;
      [apply Z.eqb_eq in E3; now right; right; left|apply Z.eqb_neq in E3].
    right; right; right. repeat split; assumption. }
  split.
  - intros d.
    destruct (Hcases d) as [[-> ->] | [[-> ->] | [[-> ->] | (? & ? & ? & ->)]]];
      split; try discriminate; try tauto;
      intros (? & ? & ?); congruence.
  - intros d1 d2 Heq Hknown.
    destruct (Hcases d1)
      as [[-> H1] | [[-> H1] | [[-> H1] | (_ & _ & _ & H1)]]];
      [| | |congruence];
      destruct (Hcases d2)
        as [[-> H2] | [[-> H2] | [[-> H2] | (_ & _ & _ & H2)]]];
      try reflexivity; rewrite H1, H2 in Heq; discriminate Heq.
Qed.

Lemma OSDistro_String_names_witness :
  OSDistro_String 7 = "Unknown"
  /\ (OSDistro_String DistroMariner = OSDistro_String 3 -> DistroMariner = 3).
Proof.
  destruct OSDistro_String_names as [Hunknown Hinj].
  split.
  - apply Hunknown. repeat split; discriminate.
  - intros H. apply Hinj; [exact H|discriminate].
Defined.

(** ** The result and the error of [Parse] *)

(** X15.  [Parse] returns no result exactly with the error of a nil reader
    or of a failed read; it returns [ErrNoPackageSection] only together with
    a result whose three parts are empty; and a result without an error has
    a package, an image or an os-release record. *)
Theorem Parse_result_and_error (reader : option Reader) :
  match Parse reader with
  | (None, Some err) =>
      err <> ErrNoPackageSection
      /\ (reader = None
          \/ exists rd cause, reader = Some rd /\ scanErr rd = Some cause)
  | (Some result, Some err) =>
      err = ErrNoPackageSection
      /\ result = {| ResultPackages := []; ResultContainerImages := [];
                     ResultOSRelease := None |}
  | (Some result, None) =>
      result <> {| ResultPackages := []; ResultContainerImages := [];
                   ResultOSRelease := None |}
  | (None, None) => False
  end.
Proof.
  unfold Parse. destruct reader as [rd|].
  - destruct (scanErr rd) as [cause|] eqn:Herr.
    + split; [discriminate|]. right. eauto.
    + unfold finish. set (st := scanLines initState (scanned rd)).
      cbn [ResultPackages ResultContainerImages ResultOSRelease].
      destruct (Packages st) as [|p ps], (ContainerImages st) as [|i imgs],
        (0 <? size (osReleaseData st))%nat; simpl;
        try discriminate. now split.
  - split; [discriminate|now left].
Qed.

(** ** [checkPackageVulnerabilities] *)

Section VulnerabilityProperties.

Context {deb : DebVersionLib} {rpm : RpmVersionLib} {src : VulnSources}.

Lemma filter_sublist {A : Type} (f : A -> bool) (l : list A) :
  List.filter f l `sublist_of` l.
Proof.
  induction l as [|x l IH]; simpl; [constructor|].
  destruct (f x); [now apply sublist_skip|now apply sublist_cons].
Qed.

(** X16.  When [checkPackageVulnerabilities] returns an error it returns
    no advisory.  Without os-release information, and with a distro that is
    none of the three supported ones, it fails whatever the advisory
    sources hold; in the second case the message names the distro
    [Unknown], whatever its value. *)
Theorem checkPackageVulnerabilities_errors
    (pkg : OSPackage) (osRelease : option OSRelease) :
  (forall err : string,
     snd (checkPackageVulnerabilities pkg osRelease) = Some err ->
     fst (checkPackageVulnerabilities pkg osRelease) = [])
  /\ (osRelease = None ->
      checkPackageVulnerabilities pkg osRelease
      = ([], Some "OS release information required for vulnerability checking"))
  /\ (forall os : OSRelease,
        osRelease = Some os ->
        Distro os <> DistroUbuntu -> Distro os <> DistroAzureLinux ->
        Distro os <> DistroMariner ->
        checkPackageVulnerabilities pkg osRelease
        = ([], Some "unsupported distribution: Unknown")).
Proof.
  split; [|split].
  - intros err. unfold checkPackageVulnerabilities.
    destruct osRelease as [os|]; [|reflexivity]. cbv zeta.
    destruct (Distro os =? DistroUbuntu);
      [destruct (ubuntu_Get _ _) as [vulns [e|]]; [reflexivity|discriminate]|].
    destruct (Distro os =? DistroAzureLinux);
      [destruct (azure_Get _ _) as [vulns [e|]]; [reflexivity|discriminate]|].
    destruct (Distro os =? DistroMariner);
      [destruct (mariner_Get _ _) as [vulns [e|]]; [reflexivity|discriminate]|].
    reflexivity.
  - intros ->. reflexivity.
  - intros os -> Hu Ha Hm. unfold checkPackageVulnerabilities, OSDistro_String.
    apply Z.eqb_neq in Hu, Ha, Hm. cbv zeta. rewrite Hu, Ha, Hm. reflexivity.
Qed.

(** X17.  When the source of a supported distro answers without an error,
    [checkPackageVulnerabilities] returns, in the order of the source,
    exactly the advisories that [isPackageFixed] does not report as fixed;
    an advisory without a fixed version is always among them. *)
Theorem checkPackageVulnerabilities_active
    (pkg : OSPackage) (os : OSRelease) (allVulns : list Advisory) :
  (Distro os = DistroUbuntu
   /\ ubuntu_Get (VersionID os) (Name pkg) = (allVulns, None))
  \/ (Distro os = DistroAzureLinux
      /\ azure_Get (VersionID os) (Name pkg) = (allVulns, None))
  \/ (Distro os = DistroMariner
      /\ mariner_Get (VersionID os) (Name pkg) = (allVulns, None)) ->
  exists active : list Advisory,
    checkPackageVulnerabilities pkg (Some os) = (active, None)
    /\ active `sublist_of` allVulns
    /\ (forall vuln : Advisory,
          In vuln active
          <-> In vuln allVulns
              /\ isPackageFixed (Version pkg) (FixedVersion vuln) (Distro os)
                 = false)
    /\ (forall vuln : Advisory,
          In vuln allVulns -> FixedVersion vuln = "" -> In vuln active).
Proof.
  intros Hsrc.
  set (keep := fun vuln : Advisory =>
                 negb (isPackageFixed (Version pkg) (FixedVersion vuln)
                         (Distro os))).
  exists (List.filter keep allVulns).
  assert (Hin : forall vuln : Advisory,
             In vuln (List.filter keep allVulns)
             <-> In vuln allVulns
                 /\ isPackageFixed (Version pkg) (FixedVersion vuln) (Distro os)
                    = false).
  { intros vuln. rewrite filter_In. unfold keep.
    now rewrite negb_true_iff. }
  split; [|split; [apply filter_sublist|split; [exact Hin|]]].
  - unfold checkPackageVulnerabilities. cbv zeta.
    destruct Hsrc as [[Hd Hget] | [[Hd Hget] | [Hd Hget]]];
      rewrite Hd; simpl; rewrite <- ?Hd, Hget; reflexivity.
  - intros vuln Hv Hempty. apply Hin. split; [exact Hv|].
    rewrite Hempty. apply isPackageFixed_empty_fix.
Qed.

End VulnerabilityProperties.

Lemma checkPackageVulnerabilities_errors_witness :
  @checkPackageVulnerabilities NumericVersions.deb NumericVersions.rpm
    SampleSources.src {| Name := "openssl"; Version := "10" |}
    (Some {| OSName := ""; VersionID := "3.0"; OSVersion := "";
             PrettyName := ""; ID := "fedora"; Distro := 7 |})
  = ([], Some "unsupported distribution: Unknown").
Proof.
  destruct (@checkPackageVulnerabilities_errors NumericVersions.deb
              NumericVersions.rpm SampleSources.src
              {| Name := "openssl"; Version := "10" |}
              (Some {| OSName := ""; VersionID := "3.0"; OSVersion := "";
                       PrettyName := ""; ID := "fedora"; Distro := 7 |}))
    as (_ & _ & Hunsupported).
  apply (Hunsupported _ eq_refl); discriminate.
Defined.

Lemma checkPackageVulnerabilities_active_witness :
  exists active : list (string * string),
    @checkPackageVulnerabilities NumericVersions.deb NumericVersions.rpm
      SampleSources.src {| Name := "openssl"; Version := "10" |}
      (Some {| OSName := ""; VersionID := "24.04"; OSVersion := "";
               PrettyName := ""; ID := "ubuntu"; Distro := DistroUbuntu |})
    = (active, None)
    /\ In ("CVE-3", "") active.
Proof.
  destruct (@checkPackageVulnerabilities_active NumericVersions.deb
              NumericVersions.rpm SampleSources.src
              {| Name := "openssl"; Version := "10" |}
              {| OSName := ""; VersionID := "24.04"; OSVersion := "";
                 PrettyName := ""; ID := "ubuntu"; Distro := DistroUbuntu |}
              SampleSources.advisories)
    as (active & Hrun & _ & _ & Hnofix).
  { left. split; reflexivity. }
  exists active. split; [exact Hrun|].
  apply Hnofix; [|reflexivity]. simpl. tauto.
Defined.
